(** * USB descriptors: a shallow embedding of [adafruit_usb_descriptor.standard]

    The development follows [standard.py]: the field tables of the five
    fixed-format descriptor classes, [InterfaceDescriptor.__bytes__] with its
    endpoint count, and the variable-length [StringDescriptor].

    Python values are modelled as the code has them: integers as [Z], byte
    strings as [list byte], text as a list of Unicode code points, keyword
    arguments and the attribute dictionary of an instance as [gmap string _].
    A call that can raise returns a [result]; a method that assigns to
    [self] before it can raise returns the instance next to the result. *)

From Stdlib Require Import ZArith Lia Bool.
From Stdlib Require Import Strings.Byte.
From stdpp Require Import gmap strings list fin_maps.

Local Open Scope Z_scope.

(** ** Exceptions and results *)

(** The exceptions the modelled code raises.  [ValueOutOfRangeError] and
    [MissingFieldError] are the names the specification gives to the two
    failures of the base class. *)
Inductive exn : Type :=
| AttributeError (attr : string)
| TypeError
| IndexError
| ValueError (msg : string)
| StructError
| UnicodeEncodeError
| UnicodeDecodeError
| ValueOutOfRangeError
| MissingFieldError (field : string).

Inductive result (A : Type) : Type :=
| Ok (a : A)
| Err (e : exn).

Arguments Ok {A} a.
Arguments Err {A} e.

Definition bind {A B : Type} (r : result A) (k : A -> result B) : result B :=
  match r with
  | Ok a => k a
  | Err e => Err e
  end.

Notation "'let*' x := e 'in' k" := (bind e (fun x => k))
  (at level 10, x name, e at level 100, k at level 200).

Definition is_ok {A : Type} (r : result A) : bool :=
  match r with Ok _ => true | Err _ => false end.

(** ** Bytes *)

(** The byte whose value is [z mod 256]. *)
Definition byte_of_Z (z : Z) : byte :=
  match Byte.of_N (Z.to_N (z mod 256)) with
  | Some b => b
  | None => "000"%byte
  end.

Definition Z_of_byte (b : byte) : Z := Z.of_N (Byte.to_N b).

(** Little-endian bytes of an unsigned value on [w] bytes. *)
Fixpoint le_bytes (w : nat) (v : Z) : list byte :=
  match w with
  | O => []
  | S w' => byte_of_Z v :: le_bytes w' (v / 256)
  end.

(** The unsigned value of little-endian bytes. *)
Fixpoint le_value (bs : list byte) : Z :=
  match bs with
  | [] => 0
  | b :: rest => Z_of_byte b + 256 * le_value rest
  end.

(** ** The [struct] format codes of the field tables *)

Inductive fmt : Type :=
| B   (* unsigned char, one byte *)
| H.  (* unsigned short, two bytes *)

Definition width (f : fmt) : nat :=
  match f with
  | B => 1%nat
  | H => 2%nat
  end.

Definition fits (f : fmt) (v : Z) : bool :=
  (0 <=? v) && (v <? 2 ^ (8 * Z.of_nat (width f))).

(** ** Field tables (standard.py) *)

(** One row [(name, format, default)] of a class's [fields]; the default
    [None] marks a field the caller has to supply. *)
Record field : Type := Field {
  fname : string;
  ffmt : fmt;
  fdefault : option Z
}.

(** What a subclass of [core.Descriptor] declares. *)
Record descriptor_class : Type := DescriptorClass {
  cls_fields : list field;
  cls_bLength : Z;
  cls_bDescriptorType : Z
}.

Module EndpointDescriptor.
Definition fields : list field :=
  [ Field "bEndpointAddress" B None;
    Field "bmAttributes" B None;
    Field "wMaxPacketSize" H (Some 0x40);
    Field "bInterval" B (Some 0) ].
Definition bLength : Z := 0x07.
Definition bDescriptorType : Z := 0x5.
Definition TYPE_CONTROL : Z := 0.
Definition TYPE_ISOCHRONOUS : Z := 1.
Definition TYPE_BULK : Z := 2.
Definition TYPE_INTERRUPT : Z := 3.
Definition DIRECTION_IN : Z := 0x80.
Definition DIRECTION_OUT : Z := 0x00.
Definition cls : descriptor_class := DescriptorClass fields bLength bDescriptorType.
End EndpointDescriptor.

Module InterfaceDescriptor.
Definition fields : list field :=
  [ Field "bInterfaceNumber" B (Some 0);
    Field "bAlternateSetting" B (Some 0);
    Field "bNumEndpoints" B (Some 0);
    Field "bInterfaceClass" B None;
    Field "bInterfaceSubClass" B (Some 0);
    Field "bInterfaceProtocol" B (Some 0);
    Field "iInterface" B (Some 0) ].
Definition bLength : Z := 0x09.
Definition bDescriptorType : Z := 0x4.
Definition cls : descriptor_class := DescriptorClass fields bLength bDescriptorType.
End InterfaceDescriptor.

Module InterfaceAssociationDescriptor.
Definition fields : list field :=
  [ Field "bFirstInterface" B None;
    Field "bInterfaceCount" B None;
    Field "bFunctionClass" B None;
    Field "bFunctionSubClass" B None;
    Field "bFunctionProtocol" B None;
    Field "iFunction" B (Some 0) ].
Definition bLength : Z := 0x08.
Definition bDescriptorType : Z := 0xB.
Definition cls : descriptor_class := DescriptorClass fields bLength bDescriptorType.
End InterfaceAssociationDescriptor.

Module ConfigurationDescriptor.
Definition fields : list field :=
  [ Field "wTotalLength" H None;
    Field "bNumInterfaces" B None;
    Field "bConfigurationValue" B (Some 0x1);
    Field "iConfiguration" B (Some 0);
    Field "bmAttributes" B (Some 0x80);
    Field "bMaxPower" B (Some 50) ].
Definition bLength : Z := 0x09.
Definition bDescriptorType : Z := 0x2.
Definition cls : descriptor_class := DescriptorClass fields bLength bDescriptorType.
End ConfigurationDescriptor.

Module DeviceDescriptor.
Definition fields : list field :=
  [ Field "bcdUSB" H (Some 0x200);
    Field "bDeviceClass" B (Some 0xef);
    Field "bDeviceSubClass" B (Some 0x02);
    Field "bDeviceProtocol" B (Some 0x01);
    Field "bMaxPacketSize0" B (Some 0x40);
    Field "idVendor" H None;
    Field "idProduct" H None;
    Field "bcdDevice" H (Some 0x100);
    Field "iManufacturer" B None;
    Field "iProduct" B None;
    Field "iSerialNumber" B None;
    Field "bNumConfigurations" B (Some 1) ].
Definition bLength : Z := 0x12.
Definition bDescriptorType : Z := 0x1.
Definition cls : descriptor_class := DescriptorClass fields bLength bDescriptorType.
End DeviceDescriptor.

(** The row of a field in a table, and whether the table leaves it to the
    caller. *)
Definition find_field (name : string) (fs : list field) : option field :=
  List.find (fun f => String.eqb (fname f) name) fs.

Definition default_of (name : string) (fs : list field) : option Z :=
  match find_field name fs with
  | Some f => fdefault f
  | None => None
  end.

Definition required (name : string) (fs : list field) : bool :=
  match find_field name fs with
  | Some f => match fdefault f with None => true | Some _ => false end
  | None => false
  end.

(** ** The base class [core.Descriptor] *)

(** [standard.py] reads and writes [self.data] by field position
    ([self.data[0]] is the first field of the table, [self.data[2]] the
    third), so an instance keeps one integer per row of [fields]. *)

(** Modelled from the spec: [core.Descriptor.__init__] is not part of the
    sources.  Section 4.1 ([create]): for each schema field, a supplied
    value is checked to fit the field width ([ValueOutOfRangeError]
    otherwise); a field that is not supplied takes its default; a field
    with no default that is not supplied fails with [MissingFieldError]. *)
Fixpoint Descriptor_init (fs : list field) (kwargs : gmap string Z)
  : result (list Z) :=
  match fs with
  | [] => Ok []
  | f :: rest =>
      let* v := match kwargs !! fname f with
           | Some v => if fits (ffmt f) v then Ok v else Err ValueOutOfRangeError
           | None =>
               match fdefault f with
               | Some d => Ok d
               | None => Err (MissingFieldError (fname f))
               end
           end in
      let* vs := Descriptor_init rest kwargs in
      Ok (v :: vs)
  end.

(** One field on the wire: unsigned, little-endian, at its declared width;
    a value that does not fit the width cannot be written. *)
Definition pack_field (f : fmt) (v : Z) : result (list byte) :=
  if fits f v then Ok (le_bytes (width f) v) else Err ValueOutOfRangeError.

Fixpoint pack_fields (fs : list field) (data : list Z) : result (list byte) :=
  match fs, data with
  | [], [] => Ok []
  | f :: fs', v :: data' =>
      let* b := pack_field (ffmt f) v in
      let* bs := pack_fields fs' data' in
      Ok (b ++ bs)
  | _, _ => Err StructError
  end.

(** Modelled from the spec: [core.Descriptor.__bytes__] is not part of the
    sources.  Section 6 (wire format): every descriptor begins with
    [length:1][descriptorType:1] followed by its schema-defined fields in
    declared order, each packed little-endian at its declared width. *)
Definition Descriptor_bytes (c : descriptor_class) (data : list Z)
  : result (list byte) :=
  let* h0 := pack_field B (cls_bLength c) in
  let* h1 := pack_field B (cls_bDescriptorType c) in
  let* body := pack_fields (cls_fields c) data in
  Ok (h0 ++ h1 ++ body).

(** ** Python values of the string descriptor *)

(** The values [StringDescriptor] handles: integers, text (a sequence of
    Unicode code points, each in [0, 0x10FFFF]), byte strings, and lists or
    tuples of integers. *)
Inductive pyval : Type :=
| PyInt (z : Z)
| PyStr (s : list Z)
| PyBytes (b : list byte)
| PyList (l : list Z).

(** The attribute dictionary of an instance. *)
Abbreviation instance := (gmap string pyval).

(** [self.name] for a name the class does not define: the instance
    dictionary decides. *)
Definition getattr (self : instance) (name : string) : result pyval :=
  match self !! name with
  | Some v => Ok v
  | None => Err (AttributeError name)
  end.

(** [type(v) == str]. *)
Definition is_str (v : pyval) : bool :=
  match v with
  | PyStr _ => true
  | _ => false
  end.

Definition py_len (v : pyval) : result Z :=
  match v with
  | PyInt _ => Err TypeError
  | PyStr s => Ok (Z.of_nat (length s))
  | PyBytes b => Ok (Z.of_nat (length b))
  | PyList l => Ok (Z.of_nat (length l))
  end.

Definition item {A : Type} (l : list A) (i : nat) : result A :=
  match l !! i with
  | Some x => Ok x
  | None => Err IndexError
  end.

(** [v[i]] for a constant index [i >= 0]. *)
Definition py_getitem (v : pyval) (i : nat) : result pyval :=
  match v with
  | PyInt _ => Err TypeError
  | PyStr s => let* c := item s i in Ok (PyStr [c])
  | PyBytes b => let* x := item b i in Ok (PyInt (Z_of_byte x))
  | PyList l => let* x := item l i in Ok (PyInt x)
  end.

(** Where a slice bound lands in a sequence of length [n]: a negative
    bound counts from the end, and every bound is clamped to [0, n]. *)
Definition slice_index (n i : Z) : Z :=
  if i <? 0 then Z.max (i + n) 0 else Z.min i n.

(** [l[start:stop]]. *)
Definition slice {A : Type} (l : list A) (start stop : Z) : list A :=
  let n := Z.of_nat (length l) in
  let a := slice_index n start in
  let b := slice_index n stop in
  take (Z.to_nat (b - a)) (drop (Z.to_nat a) l).

Definition py_getslice (v : pyval) (start stop : Z) : result pyval :=
  match v with
  | PyInt _ => Err TypeError
  | PyStr s => Ok (PyStr (slice s start stop))
  | PyBytes b => Ok (PyBytes (slice b start stop))
  | PyList l => Ok (PyList (slice l start stop))
  end.

(** [v != k] for an integer constant [k]. *)
Definition py_ne_int (v : pyval) (k : Z) : bool :=
  match v with
  | PyInt z => negb (z =? k)
  | _ => true
  end.

(** [k + v] for an integer constant [k]. *)
Definition py_add_int (k : Z) (v : pyval) : result Z :=
  match v with
  | PyInt z => Ok (k + z)
  | _ => Err TypeError
  end.

(** ** The [utf-16-le] codec *)

Definition is_high_surrogate (c : Z) : bool := (0xD800 <=? c) && (c <=? 0xDBFF).
Definition is_low_surrogate (c : Z) : bool := (0xDC00 <=? c) && (c <=? 0xDFFF).
Definition is_surrogate (c : Z) : bool := (0xD800 <=? c) && (c <=? 0xDFFF).

(** One code point: a code unit of the basic plane, a surrogate pair above
    it; a lone surrogate cannot be encoded. *)
Definition encode_char (c : Z) : result (list byte) :=
  if is_surrogate c then Err UnicodeEncodeError
  else if c <? 0x10000 then Ok (le_bytes 2 c)
  else
    let v := c - 0x10000 in
    Ok (le_bytes 2 (0xD800 + v / 0x400) ++ le_bytes 2 (0xDC00 + v mod 0x400)).

(** [text.encode("utf-16-le")]. *)
Fixpoint utf_16_le_encode (s : list Z) : result (list byte) :=
  match s with
  | [] => Ok []
  | c :: rest =>
      let* b := encode_char c in
      let* bs := utf_16_le_encode rest in
      Ok (b ++ bs)
  end.

(** The 16-bit code units of a byte string; a trailing odd byte is
    truncated data. *)
Fixpoint code_units (bs : list byte) : result (list Z) :=
  match bs with
  | [] => Ok []
  | [ _ ] => Err UnicodeDecodeError
  | lo :: hi :: rest =>
      let* us := code_units rest in
      Ok (Z_of_byte lo + 256 * Z_of_byte hi :: us)
  end.

Fixpoint code_points (us : list Z) : result (list Z) :=
  match us with
  | [] => Ok []
  | u :: rest =>
      if is_high_surrogate u then
        match rest with
        | l :: rest' =>
            if is_low_surrogate l then
              let* cs := code_points rest' in
              Ok (0x10000 + (u - 0xD800) * 0x400 + (l - 0xDC00) :: cs)
            else Err UnicodeDecodeError
        | [] => Err UnicodeDecodeError
        end
      else if is_low_surrogate u then Err UnicodeDecodeError
      else
        let* cs := code_points rest in
        Ok (u :: cs)
  end.

(** [raw.decode("utf-16-le")]. *)
Definition utf_16_le_decode (bs : list byte) : result (list Z) :=
  let* us := code_units bs in
  code_points us.

(** [value.encode("utf-16-le")]: only text has the method. *)
Definition py_encode (value : pyval) : result pyval :=
  match value with
  | PyStr s => let* b := utf_16_le_encode s in Ok (PyBytes b)
  | _ => Err (AttributeError "encode")
  end.

(** [struct.pack("BB{n}s", a0, a1, a2)] in native mode: two unsigned
    bytes, then [a2] cut or zero-padded to [n] bytes; no padding is added
    between one-byte items. *)
Definition struct_pack_BBs (n : Z) (a0 a1 a2 : pyval) : result (list byte) :=
  match a0, a1, a2 with
  | PyInt x, PyInt y, PyBytes s =>
      if fits B x && fits B y then
        Ok (byte_of_Z x :: byte_of_Z y ::
            take (Z.to_nat n) s ++ replicate (Z.to_nat n - length s) "000"%byte)
      else Err StructError
  | _, _, _ => Err StructError
  end.

(** ** [StringDescriptor] *)

Module StringDescriptor.

(** The two read-only properties. *)
Definition bDescriptorType (self : instance) : Z := 3.

Definition bLength (self : instance) : result pyval := getattr self "_bLength".

Definition __init__ (value : pyval) : result instance :=
  let self : instance := ∅ in
  match value with
  | PyStr s =>
      let* b := utf_16_le_encode s in
      let self := <["_bString" := PyBytes b]> self in
      let* bs := getattr self "_bString" in
      let* n := py_len bs in
      Ok (<["_bLength" := PyInt (n + 2)]> self)
  | _ =>
      let* n := py_len value in
      if 1 <? n then
        let* v0 := py_getitem value 0 in
        let self := <["_bLength" := v0]> self in
        let* v1 := py_getitem value 1 in
        if py_ne_int v1 3 then Err (ValueError "Sequence not a StringDescriptor")
        else
          let* l := bLength self in
          let* stop := py_add_int 2 l in
          let* s := py_getslice value 2 stop in
          Ok (<["_bString" := s]> self)
      else Ok self
  end.

Definition __bytes__ (self : instance) : result (list byte) :=
  let* s := getattr self "_bString" in
  let* n := py_len s in
  let* l := bLength self in
  let* s' := getattr self "_bString" in
  struct_pack_BBs n l (PyInt (bDescriptorType self)) s'.

(** The [bString] property, read. *)
Definition bString (self : instance) : result pyval :=
  let* s := getattr self "_bString" in
  match s with
  | PyBytes b => let* t := utf_16_le_decode b in Ok (PyStr t)
  | _ => Err (AttributeError "decode")
  end.

(** The [bString] property, assigned: the instance after the call, and
    whether the call returned. *)
Definition set_bString (self : instance) (value : pyval) : instance * result unit :=
  match py_encode value with
  | Err e => (self, Err e)
  | Ok b =>
      let self := <["_bString" := b]> self in
      match (let* enc := getattr self "encoded" in py_len enc) with
      | Err e => (self, Err e)
      | Ok n => (<["_bLength" := PyInt (n + 2)]> self, Ok tt)
      end
  end.

End StringDescriptor.

(** ** Descriptor objects and [bytes(desc)] *)

(** The objects that can stand in a list of subdescriptors: instances of
    the fixed-format classes, interfaces with their own subdescriptors,
    string descriptors, and any other object that has a [bDescriptorType]
    and a [__bytes__] (class or vendor specific descriptors), given by its
    type and by what [bytes] returns or raises for it. *)
#[warnings="-register-all"]
Inductive descriptor : Type :=
| Fixed (c : descriptor_class) (data : list Z)
| Interface (data : list Z) (subdescriptors : list descriptor)
| StringDesc (self : instance)
| Foreign (ty : Z) (out : result (list byte)).

Definition descriptor_type (d : descriptor) : Z :=
  match d with
  | Fixed c _ => cls_bDescriptorType c
  | Interface _ _ => InterfaceDescriptor.bDescriptorType
  | StringDesc self => StringDescriptor.bDescriptorType self
  | Foreign ty _ => ty
  end.

(** [l[i] = v] on a Python list. *)
Definition list_setitem (l : list Z) (i : nat) (v : Z) : result (list Z) :=
  if decide (i < length l)%nat then Ok (<[i := v]> l) else Err IndexError.

(** The loop of [InterfaceDescriptor.__bytes__] over [self.subdescriptors],
    from a given [endpoint_count] and list [subdescriptor_bytes]; the
    subdescriptors come back as the calls left them. *)
Definition serialize_subdescriptors
    (bytes_of : descriptor -> descriptor * result (list byte)) :=
  fix loop (ds : list descriptor) (endpoint_count : Z)
      (subdescriptor_bytes : list (list byte)) {struct ds}
    : list descriptor * result (Z * list (list byte)) :=
    match ds with
    | [] => ([], Ok (endpoint_count, subdescriptor_bytes))
    | desc :: rest =>
        match bytes_of desc with
        | (desc', Err e) => (desc' :: rest, Err e)
        | (desc', Ok b) =>
            let subdescriptor_bytes := subdescriptor_bytes ++ [b] in
            let endpoint_count :=
              if descriptor_type desc' =? EndpointDescriptor.bDescriptorType
              then endpoint_count + 1 else endpoint_count in
            match loop rest endpoint_count subdescriptor_bytes with
            | (rest', r) => (desc' :: rest', r)
            end
        end
    end.

(** [bytes(desc)]: the object after the call and the bytes, or the
    exception.  Only an interface is changed by it (its [data[2]]). *)
Fixpoint descriptor_bytes (d : descriptor) : descriptor * result (list byte) :=
  match d with
  | Fixed c data => (d, Descriptor_bytes c data)
  | Interface data subs =>
      match serialize_subdescriptors descriptor_bytes subs 0 [] with
      | (subs', Err e) => (Interface data subs', Err e)
      | (subs', Ok (endpoint_count, parts)) =>
          let subdescriptor_bytes := concat parts in
          match list_setitem data 2 endpoint_count with
          | Err e => (Interface data subs', Err e)
          | Ok data' =>
              (Interface data' subs',
               let* own := Descriptor_bytes InterfaceDescriptor.cls data' in
               Ok (own ++ subdescriptor_bytes))
          end
      end
  | StringDesc self => (d, StringDescriptor.__bytes__ self)
  | Foreign _ out => (d, out)
  end.

(** The constructor of [InterfaceDescriptor]: the [subdescriptors] keyword, when
    given, is kept as the list of subdescriptors; the fields are left to
    the base class. *)
Definition InterfaceDescriptor_init (kwargs : gmap string Z)
    (subdescriptors : option (list descriptor)) : result descriptor :=
  let subs := match subdescriptors with Some l => l | None => [] end in
  let* data := Descriptor_init InterfaceDescriptor.fields kwargs in
  Ok (Interface data subs).

(** An instance of a class that only declares its table. *)
Definition Descriptor_new (c : descriptor_class) (kwargs : gmap string Z)
  : result descriptor :=
  let* data := Descriptor_init (cls_fields c) kwargs in
  Ok (Fixed c data).

(** The number of endpoint descriptors among the direct children. *)
Definition count_endpoints (ds : list descriptor) : Z :=
  Z.of_nat (length (filter (fun d => descriptor_type d = EndpointDescriptor.bDescriptorType) ds)).

(** Text of an ASCII literal, as code points. *)
Fixpoint text (s : string) : list Z :=
  match s with
  | EmptyString => []
  | String a rest => Z.of_N (Ascii.N_of_ascii a) :: text rest
  end.

(** The instances the class itself can produce: built by the constructor,
    then assigned to through the [bString] property any number of times,
    whether the assignment returned or raised. *)
Inductive reachable : instance -> Prop :=
| reachable_init (value : pyval) (self : instance) :
    StringDescriptor.__init__ value = Ok self -> reachable self
| reachable_set (self : instance) (value : pyval) :
    reachable self -> reachable (fst (StringDescriptor.set_bString self value)).

(** The fields of a serialized record, read back from the wire. *)
Definition wire_byte (bs : list byte) (i : nat) : option Z :=
  Z_of_byte <$> bs !! i.

Definition wire_u16 (bs : list byte) (i : nat) : Z :=
  le_value (take 2 (drop i bs)).

(** ** Sample objects *)

(** A bulk IN endpoint at address 0x81, with the defaults of the table. *)
Definition bulk_in : descriptor :=
  Fixed EndpointDescriptor.cls [0x81; EndpointDescriptor.TYPE_BULK; 0x40; 0].

(** A class-specific descriptor (type 0x24) of five bytes. *)
Definition class_specific : descriptor :=
  Foreign 0x24 (Ok [x05; x24; x00; x10; x01]).

(** The fields of an interface of class 3 as its constructor leaves them. *)
Definition hid_fields : list Z := [0; 0; 0; 3; 0; 0; 0].

(** Two class-specific descriptors and three endpoints, interleaved. *)
Definition mixed_children : list descriptor :=
  [class_specific; bulk_in; class_specific; bulk_in; bulk_in].

(** Keyword arguments of a configuration whose caller passes a total
    length and an interface count of its own choosing. *)
Definition sample_configuration : gmap string Z :=
  <["wTotalLength" := 0x1234]> (<["bNumInterfaces" := 7]> ∅).

(** Keyword arguments of a configuration whose caller has computed the
    total length of the record and of 23 bytes that follow it. *)
Definition computed_configuration : gmap string Z :=
  <["wTotalLength" := 9 + 23]> (<["bNumInterfaces" := 1]> ∅).

(** The bytes of the string descriptor of "H" (length byte 4), followed
    by two bytes that belong to whatever comes next in the buffer. *)
Definition wire_H_and_more : list byte := [x04; x03; x48; x00; x69; x00].

(** 127 letters A: 254 bytes of UTF-16. *)
Definition long_text : list Z := replicate 127 0x41.

(** The instance built from the text "Hi". *)
Definition string_Hi : instance :=
  <["_bLength" := PyInt 6]> (<["_bString" := PyBytes [x48; x00; x69; x00]]> ∅).

(** ** Accessors of the subclasses *)

(** The property [bEndpointAddress] of [EndpointDescriptor], read and
    assigned: [self.data[0]]. *)
Definition bEndpointAddress (data : list Z) : result Z := item data 0.

Definition set_bEndpointAddress (data : list Z) (value : Z) : result (list Z) :=
  list_setitem data 0 value.

(** The property [bInterfaceNumber] of [InterfaceDescriptor], read and
    assigned: [self.data[0]]. *)
Definition bInterfaceNumber (data : list Z) : result Z := item data 0.

Definition set_bInterfaceNumber (data : list Z) (value : Z) : result (list Z) :=
  list_setitem data 0 value.

(** The classes of [standard.py] that take their constructor and their
    [__bytes__] from the base class unchanged. *)
Definition plain_classes : list descriptor_class :=
  [ EndpointDescriptor.cls; InterfaceAssociationDescriptor.cls;
    ConfigurationDescriptor.cls; DeviceDescriptor.cls ].

(** [d'] is [d] up to the third field of interfaces, at any depth: what a
    call of [bytes] may have changed. *)
#[warnings="-register-all"]
Inductive count_updated : descriptor -> descriptor -> Prop :=
| count_updated_Fixed (c : descriptor_class) (data : list Z) :
    count_updated (Fixed c data) (Fixed c data)
| count_updated_String (self : instance) :
    count_updated (StringDesc self) (StringDesc self)
| count_updated_Foreign (ty : Z) (out : result (list byte)) :
    count_updated (Foreign ty out) (Foreign ty out)
| count_updated_Interface (data data' : list Z) (subs subs' : list descriptor) :
    length data' = length data ->
    (forall i : nat, i <> 2%nat -> data' !! i = data !! i) ->
    Forall2 count_updated subs subs' ->
    count_updated (Interface data subs) (Interface data' subs').

(** A descriptor whose serialization raises. *)
Definition broken : descriptor := Foreign 0x24 (Err TypeError).

(** An interface inside an interface, with an endpoint each. *)
Definition nested_interface : descriptor :=
  Interface hid_fields [bulk_in; Interface hid_fields [bulk_in; class_specific]].

(** Keyword arguments of a device that leave every default in place. *)
Definition sample_device : gmap string Z :=
  <["idVendor" := 0x239A]> (<["idProduct" := 0x8015]> (<["iManufacturer" := 1]>
    (<["iProduct" := 2]> (<["iSerialNumber" := 3]> ∅)))).

(** * Results *)

Ltac split_all := repeat match goal with |- _ /\ _ => split end.

(** ** Bytes and little-endian packing *)

Lemma Z_of_byte_range (b : byte) : 0 <= Z_of_byte b < 256.
Proof.
  unfold Z_of_byte. pose proof (Byte.to_N_bounded b) as Hb. lia.
Qed.

Lemma Z_of_byte_of_Z (z : Z) : 0 <= z < 256 -> Z_of_byte (byte_of_Z z) = z.
Proof.
  intros Hz. unfold Z_of_byte, byte_of_Z.
  rewrite Z.mod_small by lia.
  destruct (Byte.of_N (Z.to_N z)) as [b|] eqn:Hb.
  - apply Byte.to_of_N in Hb. rewrite Hb. lia.
  - apply Byte.of_N_None_iff in Hb. lia.
Qed.

Lemma byte_of_Z_of_byte (b : byte) : byte_of_Z (Z_of_byte b) = b.
Proof.
  unfold byte_of_Z. rewrite Z.mod_small by apply Z_of_byte_range.
  unfold Z_of_byte. rewrite N2Z.id, Byte.of_to_N. reflexivity.
Qed.

Lemma length_le_bytes (w : nat) (v : Z) : length (le_bytes w v) = w.
Proof.
  revert v. induction w as [|w IH]; intros v; simpl; [reflexivity|].
  now rewrite IH.
Qed.

Lemma byte_of_Z_mod (v : Z) : byte_of_Z (v mod 256) = byte_of_Z v.
Proof. unfold byte_of_Z. now rewrite Z.mod_mod by lia. Qed.

Lemma le_value_le_bytes (w : nat) (v : Z) :
  0 <= v < 2 ^ (8 * Z.of_nat w) -> le_value (le_bytes w v) = v.
Proof.
  revert v. induction w as [|w IH]; intros v Hv.
  - simpl in *. lia.
  - cbn [le_bytes le_value].
    replace (8 * Z.of_nat (S w)) with (8 + 8 * Z.of_nat w) in Hv by lia.
    rewrite Z.pow_add_r in Hv by lia. change (2 ^ 8) with 256 in Hv.
    rewrite IH.
    + rewrite <- byte_of_Z_mod, Z_of_byte_of_Z by (apply Z.mod_pos_bound; lia).
      pose proof (Z.div_mod v 256). lia.
    + split; [apply Z.div_pos; lia|].
      apply Z.div_lt_upper_bound; lia.
Qed.

Lemma fits_B (v : Z) : fits B v = true <-> 0 <= v <= 255.
Proof. unfold fits. cbn. rewrite andb_true_iff, Z.leb_le, Z.ltb_lt. lia. Qed.

Lemma fits_H (v : Z) : fits H v = true <-> 0 <= v <= 65535.
Proof. unfold fits. cbn. rewrite andb_true_iff, Z.leb_le, Z.ltb_lt. lia. Qed.

Lemma pack_field_Ok (f : fmt) (v : Z) (bs : list byte) :
  pack_field f v = Ok bs <-> fits f v = true /\ bs = le_bytes (width f) v.
Proof.
  unfold pack_field. destruct (fits f v); split.
  - intros [= <-]. auto.
  - intros [_ ->]. reflexivity.
  - discriminate.
  - intros [? _]. discriminate.
Qed.

Lemma pack_field_Err (f : fmt) (v : Z) (e : exn) :
  pack_field f v = Err e -> fits f v = false /\ e = ValueOutOfRangeError.
Proof.
  unfold pack_field. destruct (fits f v); [discriminate|]. intros [= <-]. auto.
Qed.

Lemma bind_Ok {A C : Type} (r : result A) (k : A -> result C) (c : C) :
  bind r k = Ok c <-> exists a, r = Ok a /\ k a = Ok c.
Proof.
  destruct r as [a|e]; simpl; split.
  - eauto.
  - intros (a' & [= <-] & H). exact H.
  - discriminate.
  - intros (a' & [=] & _).
Qed.

Lemma pack_fields_length (fs : list field) (data : list Z) (bs : list byte) :
  pack_fields fs data = Ok bs ->
  length data = length fs /\
  length bs = sum_list (map (fun f => width (ffmt f)) fs).
Proof.
  revert data bs. induction fs as [|f fs IH]; intros [|v data] bs; simpl; try discriminate.
  - intros [= <-]. auto.
  - intros H. apply bind_Ok in H as (b & Hb & H).
    apply bind_Ok in H as (bs' & Hbs & [= <-]).
    apply pack_field_Ok in Hb as [_ ->].
    apply IH in Hbs as [-> Hlen].
    rewrite length_app, length_le_bytes, Hlen. auto.
Qed.

(** ** The field tables *)

Lemma land_3_cases (a : Z) :
  Z.land a 3 = 0 \/ Z.land a 3 = 1 \/ Z.land a 3 = 2 \/ Z.land a 3 = 3.
Proof.
  assert (Z.land a 3 = a mod 4) as ->
    by (change 3 with (Z.ones 2); now rewrite Z.land_ones by lia).
  pose proof (Z.mod_pos_bound a 4) as Hm. lia.
Qed.

Lemma direction_bit (d n : Z) :
  Z.land d 0x80 = d -> Z.land (Z.lor d (Z.land n 0x7F)) 0x80 = d.
Proof.
  intros Hd. rewrite Z.land_lor_distr_l, Hd, <- Z.land_assoc.
  change (Z.land 0x7F 0x80) with 0. now rewrite Z.land_0_r, Z.lor_0_r.
Qed.

(** C8.  The endpoint table: record length 7 (the two header bytes and the
    widths of the four fields), descriptor type 5, defaults
    [wMaxPacketSize = 0x40] and [bInterval = 0], no default for the address
    and the attributes.  The transfer types are the four values of the low
    two bits of [bmAttributes], in the order control, isochronous, bulk,
    interrupt; the direction is bit 7 of the address, set for IN and clear
    for OUT, whatever the endpoint number in the low seven bits. *)
Theorem endpoint_schema :
  EndpointDescriptor.bLength = 7 /\
  EndpointDescriptor.bDescriptorType = 5 /\
  Z.of_nat (2 + sum_list (map (fun f => width (ffmt f)) EndpointDescriptor.fields))
    = EndpointDescriptor.bLength /\
  map fname EndpointDescriptor.fields
    = ["bEndpointAddress"; "bmAttributes"; "wMaxPacketSize"; "bInterval"] /\
  default_of "wMaxPacketSize" EndpointDescriptor.fields = Some 0x40 /\
  default_of "bInterval" EndpointDescriptor.fields = Some 0 /\
  required "bEndpointAddress" EndpointDescriptor.fields = true /\
  required "bmAttributes" EndpointDescriptor.fields = true /\
  [EndpointDescriptor.TYPE_CONTROL; EndpointDescriptor.TYPE_ISOCHRONOUS;
   EndpointDescriptor.TYPE_BULK; EndpointDescriptor.TYPE_INTERRUPT] = [0; 1; 2; 3] /\
  (forall bmAttributes : Z,
     Z.land bmAttributes 3 ∈
       [EndpointDescriptor.TYPE_CONTROL; EndpointDescriptor.TYPE_ISOCHRONOUS;
        EndpointDescriptor.TYPE_BULK; EndpointDescriptor.TYPE_INTERRUPT]) /\
  EndpointDescriptor.DIRECTION_IN = 0x80 /\
  EndpointDescriptor.DIRECTION_OUT = 0x00 /\
  (forall number : Z,
     Z.land (Z.lor EndpointDescriptor.DIRECTION_IN (Z.land number 0x7F)) 0x80
       = EndpointDescriptor.DIRECTION_IN /\
     Z.land (Z.lor EndpointDescriptor.DIRECTION_OUT (Z.land number 0x7F)) 0x80
       = EndpointDescriptor.DIRECTION_OUT).
Proof.
  repeat match goal with |- _ /\ _ => split end; try reflexivity.
  - intros a. unfold EndpointDescriptor.TYPE_CONTROL, EndpointDescriptor.TYPE_ISOCHRONOUS,
      EndpointDescriptor.TYPE_BULK, EndpointDescriptor.TYPE_INTERRUPT.
    destruct (land_3_cases a) as [-> | [-> | [-> | ->]]]; set_solver.
  - intros n. split; apply direction_bit; reflexivity.
Qed.

(** C7, as the table has it.  The interface table: record length 9,
    descriptor type 4, default 0 for the alternate setting, the subclass,
    the protocol and the string index; [bNumEndpoints] is the third field
    (the one [__bytes__] overwrites) and starts at 0.  Only the interface
    class has no default: the interface number defaults to 0. *)
Theorem interface_schema :
  InterfaceDescriptor.bLength = 9 /\
  InterfaceDescriptor.bDescriptorType = 4 /\
  Z.of_nat (2 + sum_list (map (fun f => width (ffmt f)) InterfaceDescriptor.fields))
    = InterfaceDescriptor.bLength /\
  default_of "bAlternateSetting" InterfaceDescriptor.fields = Some 0 /\
  default_of "bInterfaceSubClass" InterfaceDescriptor.fields = Some 0 /\
  default_of "bInterfaceProtocol" InterfaceDescriptor.fields = Some 0 /\
  default_of "iInterface" InterfaceDescriptor.fields = Some 0 /\
  fname <$> InterfaceDescriptor.fields !! 2%nat = Some "bNumEndpoints" /\
  default_of "bNumEndpoints" InterfaceDescriptor.fields = Some 0 /\
  default_of "bInterfaceNumber" InterfaceDescriptor.fields = Some 0 /\
  filter (fun f => fdefault f = None) InterfaceDescriptor.fields
    = [Field "bInterfaceClass" B None].
Proof.
  repeat match goal with |- _ /\ _ => split end; reflexivity.
Qed.

(** C7, as stated, fails: the interface number is not a required field;
    the table gives it the default 0. *)
Lemma interface_number_not_required :
  required "bInterfaceClass" InterfaceDescriptor.fields = true /\
  required "bInterfaceNumber" InterfaceDescriptor.fields = false /\
  default_of "bInterfaceNumber" InterfaceDescriptor.fields = Some 0.
Proof. repeat split. Qed.

(** ** Instances of the fixed-format classes *)

(** What the constructor leaves in [data]: for every field, the keyword
    argument when there is one (and it fits), the default otherwise. *)
Lemma Descriptor_init_fields (fs : list field) (kwargs : gmap string Z) (data : list Z) :
  Descriptor_init fs kwargs = Ok data ->
  Forall2 (fun f v =>
             (kwargs !! fname f = Some v /\ fits (ffmt f) v = true) \/
             (kwargs !! fname f = None /\ fdefault f = Some v)) fs data.
Proof.
  revert data. induction fs as [|f fs IH]; intros data; simpl.
  - intros [= <-]. constructor.
  - intros H. apply bind_Ok in H as (v & Hv & H).
    apply bind_Ok in H as (vs & Hvs & [= <-]).
    constructor; [|now apply IH].
    destruct (kwargs !! fname f) as [x|].
    + destruct (fits (ffmt f) x) eqn:Hfit; [|discriminate].
      injection Hv as <-. auto.
    + destruct (fdefault f); [|discriminate]. injection Hv as <-. auto.
Qed.

(** A field without default that the caller leaves out makes the
    constructor fail, whatever else is supplied. *)
Lemma Descriptor_init_required (fs : list field) (kwargs : gmap string Z) (name : string) :
  required name fs = true -> kwargs !! name = None ->
  is_ok (Descriptor_init fs kwargs) = false.
Proof.
  unfold required, find_field. intros Hreq Hnone.
  induction fs as [|f fs IH]; simpl in *; [discriminate|].
  destruct (String.eqb (fname f) name) eqn:Heq.
  - apply String.eqb_eq in Heq. subst name. rewrite Hnone.
    destruct (fdefault f); [discriminate|]. reflexivity.
  - destruct (match kwargs !! fname f with Some _ => _ | None => _ end); simpl; [|reflexivity].
    specialize (IH Hreq). destruct (Descriptor_init fs kwargs); [discriminate|reflexivity].
Qed.

(** A table whose defaults fit their widths only yields records that can
    be written. *)
Lemma Descriptor_init_packs (fs : list field) (kwargs : gmap string Z) (data : list Z) :
  Forall (fun f => match fdefault f with Some d => fits (ffmt f) d = true | None => True end) fs ->
  Descriptor_init fs kwargs = Ok data ->
  is_ok (pack_fields fs data) = true.
Proof.
  intros Hdef Hinit. apply Descriptor_init_fields in Hinit.
  induction Hinit as [|f v fs data Hv _ IH]; [reflexivity|].
  apply Forall_cons in Hdef as [Hf Hfs]. simpl.
  assert (fits (ffmt f) v = true) as Hfit.
  { destruct Hv as [[_ ?]|[_ Hd]]; [assumption|]. now rewrite Hd in Hf. }
  unfold pack_field. rewrite Hfit. simpl.
  specialize (IH Hfs). destruct (pack_fields fs data); [reflexivity|discriminate].
Qed.

(** With defaults that fit, every value the constructor stores fits its
    field, and is the keyword argument or else the default. *)
Lemma Descriptor_init_values (fs : list field) (kwargs : gmap string Z) (data : list Z) :
  Forall (fun f => match fdefault f with Some d => fits (ffmt f) d = true | None => True end) fs ->
  Descriptor_init fs kwargs = Ok data ->
  Forall2 (fun f v =>
             fits (ffmt f) v = true /\
             match kwargs !! fname f with
             | Some x => x = v
             | None => fdefault f = Some v
             end) fs data.
Proof.
  intros Hdef Hinit. apply Descriptor_init_fields in Hinit.
  induction Hinit as [|f v fs data Hv _ IH]; [constructor|].
  apply Forall_cons in Hdef as [Hf Hfs].
  constructor; [|now apply IH].
  destruct Hv as [[-> Hfit]|[-> Hd]]; [auto|].
  rewrite Hd in Hf. auto.
Qed.

(** The values of a record built from a concrete table, one by one. *)
Ltac fields_inv H :=
  repeat match type of H with
         | Forall2 _ (_ :: _) _ =>
             let v := fresh "v" in
             let Hv := fresh "Hv" in
             apply Forall2_cons_inv_l in H as (v & ? & Hv & H & ->);
             cbn [ffmt fname fdefault] in Hv
         end;
  apply Forall2_nil_inv_l in H as ->.

Lemma configuration_defaults_fit :
  Forall (fun f => match fdefault f with Some d => fits (ffmt f) d = true | None => True end)
         ConfigurationDescriptor.fields.
Proof. repeat constructor. Qed.

Lemma interface_defaults_fit :
  Forall (fun f => match fdefault f with Some d => fits (ffmt f) d = true | None => True end)
         InterfaceDescriptor.fields.
Proof. repeat constructor. Qed.

(** C2, as the code has it.  A configuration descriptor keeps no children
    and recomputes nothing: [wTotalLength] and [bNumInterfaces] are
    fields without default that the caller supplies, and [bytes] returns
    the 9-byte record alone, carrying the two values as supplied and
    leaving the instance as it was.  [wTotalLength] is the length of what
    is sent (the record and the bytes [rest] the caller puts after it)
    when the caller passed that length. *)
Theorem configuration_bytes (kwargs : gmap string Z) (d : descriptor) :
  Descriptor_new ConfigurationDescriptor.cls kwargs = Ok d ->
  exists (total n : Z) (bs : list byte),
    kwargs !! "wTotalLength" = Some total /\
    kwargs !! "bNumInterfaces" = Some n /\
    descriptor_bytes d = (d, Ok bs) /\
    length bs = 9%nat /\
    wire_byte bs 0 = Some ConfigurationDescriptor.bLength /\
    wire_byte bs 1 = Some ConfigurationDescriptor.bDescriptorType /\
    wire_u16 bs 2 = total /\
    wire_byte bs 4 = Some n /\
    (forall rest : list byte,
       total = 9 + Z.of_nat (length rest) ->
       wire_u16 (bs ++ rest) 2 = Z.of_nat (length (bs ++ rest))).
Proof.
  unfold Descriptor_new. intros Hnew.
  apply bind_Ok in Hnew as (data & Hdata & [= <-]).
  apply (Descriptor_init_values _ _ _ configuration_defaults_fit) in Hdata.
  cbn [cls_fields ConfigurationDescriptor.cls] in Hdata.
  unfold ConfigurationDescriptor.fields in Hdata.
  fields_inv Hdata.
  destruct Hv as [Ht Hkt], Hv0 as [Hn Hkn], Hv1 as [H2 _], Hv2 as [H3 _],
    Hv3 as [H4 _], Hv4 as [H5 _].
  destruct (kwargs !! "wTotalLength") as [total|]; [subst v|discriminate].
  destruct (kwargs !! "bNumInterfaces") as [n|]; [subst v0|discriminate].
  exists total, n.
  pose proof (proj1 (fits_H total) Ht). pose proof (proj1 (fits_B n) Hn).
  assert (Descriptor_bytes ConfigurationDescriptor.cls [total; n; v1; v2; v3; v4]
          = Ok ([byte_of_Z 9; byte_of_Z 2] ++ le_bytes 2 total
                ++ map byte_of_Z [n; v1; v2; v3; v4])) as Hbytes.
  { unfold Descriptor_bytes, ConfigurationDescriptor.cls, ConfigurationDescriptor.fields.
    cbn [cls_fields cls_bLength cls_bDescriptorType pack_fields ffmt].
    unfold pack_field. rewrite Ht, Hn, H2, H3, H4, H5. reflexivity. }
  cbn [descriptor_bytes]. rewrite Hbytes.
  assert (le_value (le_bytes 2 total) = total) as Hle
    by (apply le_value_le_bytes; cbn; lia).
  eexists. split_all; try reflexivity.
  - exact Hle.
  - unfold wire_byte. cbn. now rewrite Z_of_byte_of_Z by lia.
  - intros rest ->. unfold wire_u16. cbn [app drop take le_bytes map] in *.
    rewrite Hle. cbn [length]. lia.
Qed.

(** A configuration whose caller passed the length of what follows. *)
Lemma configuration_bytes_witness :
  exists (total n : Z) (bs : list byte),
    computed_configuration !! "wTotalLength" = Some total /\
    computed_configuration !! "bNumInterfaces" = Some n /\
    descriptor_bytes (Fixed ConfigurationDescriptor.cls [32; 1; 1; 0; 0x80; 50])
    = (Fixed ConfigurationDescriptor.cls [32; 1; 1; 0; 0x80; 50], Ok bs) /\
    length bs = 9%nat /\
    wire_byte bs 0 = Some ConfigurationDescriptor.bLength /\
    wire_byte bs 1 = Some ConfigurationDescriptor.bDescriptorType /\
    wire_u16 bs 2 = total /\
    wire_byte bs 4 = Some n /\
    (forall rest : list byte,
       total = 9 + Z.of_nat (length rest) ->
       wire_u16 (bs ++ rest) 2 = Z.of_nat (length (bs ++ rest))).
Proof.
  apply (configuration_bytes computed_configuration
           (Fixed ConfigurationDescriptor.cls [32; 1; 1; 0; 0x80; 50])).
  vm_compute. reflexivity.
Defined.

(** C2, as stated, fails: the record of a configuration carries the
    [wTotalLength] and the [bNumInterfaces] its caller passed, here 0x1234
    and 7, while the serialized configuration is 9 bytes and has no
    interface. *)
Lemma configuration_not_recomputed :
  Descriptor_new ConfigurationDescriptor.cls sample_configuration
  = Ok (Fixed ConfigurationDescriptor.cls [0x1234; 7; 1; 0; 0x80; 50]) /\
  snd (descriptor_bytes (Fixed ConfigurationDescriptor.cls [0x1234; 7; 1; 0; 0x80; 50]))
  = Ok [x09; x02; x34; x12; x07; x01; x00; x80; x32] /\
  wire_u16 [x09; x02; x34; x12; x07; x01; x00; x80; x32] 2 = 0x1234 /\
  wire_byte [x09; x02; x34; x12; x07; x01; x00; x80; x32] 4 = Some 7 /\
  length [x09; x02; x34; x12; x07; x01; x00; x80; x32] = 9%nat.
Proof. split_all; vm_compute; reflexivity. Qed.

(** Without one of the two fields the constructor fails. *)
Lemma configuration_requires_total_length (kwargs : gmap string Z) :
  kwargs !! "wTotalLength" = None \/ kwargs !! "bNumInterfaces" = None ->
  is_ok (Descriptor_new ConfigurationDescriptor.cls kwargs) = false.
Proof.
  intros Hmiss. unfold Descriptor_new.
  assert (is_ok (Descriptor_init ConfigurationDescriptor.fields kwargs) = false) as Hinit.
  { destruct Hmiss as [Hm|Hm];
      [apply (Descriptor_init_required _ _ "wTotalLength")
      |apply (Descriptor_init_required _ _ "bNumInterfaces")]; auto. }
  cbn [cls_fields ConfigurationDescriptor.cls].
  destruct (Descriptor_init ConfigurationDescriptor.fields kwargs); [discriminate|reflexivity].
Qed.

(** The endpoint of the specification's example: address 0x81, bulk,
    defaults for the packet size and the interval. *)
Lemma endpoint_example :
  Descriptor_new EndpointDescriptor.cls
    (<["bEndpointAddress" := 0x81]> (<["bmAttributes" := 0x02]> ∅)) = Ok bulk_in /\
  snd (descriptor_bytes bulk_in) = Ok [x07; x05; x81; x02; x40; x00; x00].
Proof. split; vm_compute; reflexivity. Qed.

(** ** Interfaces and their subdescriptors *)

(** [bytes(desc)] leaves the type of [desc] alone. *)
Lemma descriptor_type_bytes (d : descriptor) :
  descriptor_type (fst (descriptor_bytes d)) = descriptor_type d.
Proof.
  destruct d as [c data|data subs|self|ty out]; simpl; try reflexivity.
  destruct (serialize_subdescriptors descriptor_bytes subs 0 []) as [subs' [[n parts]|e]];
    [destruct (list_setitem data 2 n)|]; reflexivity.
Qed.

Lemma count_endpoints_nonneg (ds : list descriptor) : 0 <= count_endpoints ds.
Proof. unfold count_endpoints. lia. Qed.

Lemma count_endpoints_cons (d : descriptor) (ds : list descriptor) :
  count_endpoints (d :: ds) =
  (if descriptor_type d =? EndpointDescriptor.bDescriptorType then 1 else 0)
  + count_endpoints ds.
Proof.
  unfold count_endpoints. rewrite filter_cons.
  destruct (Z.eqb_spec (descriptor_type d) EndpointDescriptor.bDescriptorType) as [Heq|Hne];
    case_decide; try contradiction; cbn [length]; lia.
Qed.

Lemma count_endpoints_app (ds1 ds2 : list descriptor) :
  count_endpoints (ds1 ++ ds2) = count_endpoints ds1 + count_endpoints ds2.
Proof.
  unfold count_endpoints. rewrite filter_app, length_app. lia.
Qed.

(** The count does not depend on the order of the children. *)
Lemma count_endpoints_Permutation (ds1 ds2 : list descriptor) :
  ds1 ≡ₚ ds2 -> count_endpoints ds1 = count_endpoints ds2.
Proof. intros Hp. unfold count_endpoints. now rewrite Hp. Qed.

Section Loop.

Variable bytes_of : descriptor -> descriptor * result (list byte).
Hypothesis bytes_of_type :
  forall d, descriptor_type (fst (bytes_of d)) = descriptor_type d.

(** The loop returns exactly when every call on a subdescriptor returns;
    it then has counted the endpoints and appended the results in the
    order of the list, one entry for each element. *)
Lemma serialize_subdescriptors_Ok (ds : list descriptor) (count : Z)
    (acc : list (list byte)) (n : Z) (out : list (list byte)) :
  snd (serialize_subdescriptors bytes_of ds count acc) = Ok (n, out) <->
  exists parts,
    Forall2 (fun d p => snd (bytes_of d) = Ok p) ds parts /\
    n = count + count_endpoints ds /\
    out = acc ++ parts.
Proof.
  revert count acc. induction ds as [|d ds IH]; intros count acc.
  - cbn. split.
    + intros [= <- <-]. exists []. rewrite app_nil_r. split_all; [constructor|..]; auto.
      unfold count_endpoints. cbn. lia.
    + intros (parts & Hall & -> & ->). apply Forall2_nil_inv_l in Hall as ->.
      rewrite app_nil_r. unfold count_endpoints. cbn. do 2 f_equal. lia.
  - cbn [serialize_subdescriptors]. rewrite count_endpoints_cons.
    pose proof (bytes_of_type d) as Hty.
    destruct (bytes_of d) as [d' [b|e]] eqn:Hd; cbn [fst] in Hty.
    + destruct (serialize_subdescriptors bytes_of ds
                  (if descriptor_type d' =? EndpointDescriptor.bDescriptorType
                   then count + 1 else count) (acc ++ [b])) as [rest' r] eqn:Hrest.
      cbn [snd]. replace r with (snd (rest', r)) by reflexivity. rewrite <- Hrest, IH.
      rewrite Hty. split.
      * intros (parts & Hall & -> & ->). exists (b :: parts). split_all.
        -- constructor; [now rewrite Hd|assumption].
        -- destruct (descriptor_type d =? _); lia.
        -- now rewrite <- app_assoc.
      * intros (parts & Hall & -> & ->).
        apply Forall2_cons_inv_l in Hall as (p & parts' & Hp & Hall & ->).
        rewrite Hd in Hp. injection Hp as <-.
        exists parts'. split_all; [assumption| |now rewrite <- app_assoc].
        destruct (descriptor_type d =? _); lia.
    + cbn [snd]. split; [discriminate|].
      intros (parts & Hall & _).
      apply Forall2_cons_inv_l in Hall as (p & _ & Hp & _).
      rewrite Hd in Hp. discriminate.
Qed.

(** The loop raises what the first failing call raises. *)
Lemma serialize_subdescriptors_Err (ds : list descriptor) (count : Z)
    (acc : list (list byte)) (e : exn) :
  snd (serialize_subdescriptors bytes_of ds count acc) = Err e ->
  exists d, d ∈ ds /\ snd (bytes_of d) = Err e.
Proof.
  revert count acc. induction ds as [|d ds IH]; intros count acc; cbn [serialize_subdescriptors].
  - discriminate.
  - destruct (bytes_of d) as [d' [b|e']] eqn:Hd.
    + destruct (serialize_subdescriptors bytes_of ds _ _) as [rest' r] eqn:Hrest.
      cbn [snd]. intros ->.
      edestruct IH as (x & Hx & Hxe); [rewrite Hrest; reflexivity|].
      exists x. split; [now right|assumption].
    + cbn [snd]. intros [= ->]. exists d. split; [now left|now rewrite Hd].
Qed.

End Loop.

(** A table of one-byte fields: the record can be written exactly when
    there is one value per field and every value fits a byte; each value
    is then one byte of the record. *)
Lemma pack_fields_B (fs : list field) (data : list Z) (bs : list byte) :
  Forall (fun f => ffmt f = B) fs ->
  pack_fields fs data = Ok bs <->
  length data = length fs /\ Forall (fun v => fits B v = true) data /\
  bs = map byte_of_Z data.
Proof.
  intros HB. revert data bs.
  induction HB as [|f fs Hf _ IH]; intros [|v data] bs; cbn [pack_fields length map].
  - split; [intros [= <-]|intros (_ & _ & ->)]; auto.
  - split; [discriminate|]. intros (? & _). discriminate.
  - split; [discriminate|]. intros (? & _). discriminate.
  - rewrite Hf, bind_Ok. split.
    + intros (b & Hb & H). apply bind_Ok in H as (bs' & Hbs & [= <-]).
      apply pack_field_Ok in Hb as [Hfit ->]. apply IH in Hbs as (Hlen & Hall & ->).
      split_all; [lia|constructor; assumption|reflexivity].
    + intros (Hlen & Hall & ->). apply Forall_cons in Hall as [Hfit Hall].
      exists [byte_of_Z v]. split; [apply pack_field_Ok; auto|].
      apply bind_Ok. exists (map byte_of_Z data). split; [|reflexivity].
      apply IH. split_all; [lia|assumption|reflexivity].
Qed.

(** With one value per field, the only failure of the packer is a value
    out of range. *)
Lemma pack_fields_Err (fs : list field) (data : list Z) (e : exn) :
  length data = length fs -> pack_fields fs data = Err e -> e = ValueOutOfRangeError.
Proof.
  revert data. induction fs as [|f fs IH]; intros [|v data]; cbn [pack_fields length];
    try discriminate.
  intros Hlen. unfold pack_field. destruct (fits (ffmt f) v); cbn [bind].
  - destruct (pack_fields fs data) as [bs|e'] eqn:Hbs; cbn [bind]; [discriminate|].
    intros [= <-]. apply (IH data); [lia|assumption].
  - now intros [= <-].
Qed.

(** The record of an interface on the wire: the two header bytes 9 and 4,
    then the seven fields, one byte each. *)
Lemma interface_record (data : list Z) (own : list byte) :
  Descriptor_bytes InterfaceDescriptor.cls data = Ok own <->
  length data = 7%nat /\ Forall (fun v => fits B v = true) data /\
  own = byte_of_Z 9 :: byte_of_Z 4 :: map byte_of_Z data.
Proof.
  unfold Descriptor_bytes.
  cbn [cls_bLength cls_bDescriptorType cls_fields InterfaceDescriptor.cls].
  change (pack_field B InterfaceDescriptor.bLength) with (Ok (A:=list byte) [byte_of_Z 9]).
  change (pack_field B InterfaceDescriptor.bDescriptorType) with (Ok (A:=list byte) [byte_of_Z 4]).
  cbn [bind]. rewrite bind_Ok.
  assert (Forall (fun f => ffmt f = B) InterfaceDescriptor.fields) as HB
    by (repeat constructor).
  split.
  - intros (body & Hbody & [= <-]). apply (pack_fields_B _ _ _ HB) in Hbody as (? & ? & ->).
    auto.
  - intros (Hlen & Hall & ->). exists (map byte_of_Z data). split; [|reflexivity].
    apply (pack_fields_B _ _ _ HB). auto.
Qed.

Lemma interface_record_Err (data : list Z) (e : exn) :
  length data = 7%nat ->
  Descriptor_bytes InterfaceDescriptor.cls data = Err e -> e = ValueOutOfRangeError.
Proof.
  intros Hlen. unfold Descriptor_bytes.
  cbn [cls_bLength cls_bDescriptorType cls_fields InterfaceDescriptor.cls].
  change (pack_field B InterfaceDescriptor.bLength) with (Ok (A:=list byte) [byte_of_Z 9]).
  change (pack_field B InterfaceDescriptor.bDescriptorType) with (Ok (A:=list byte) [byte_of_Z 4]).
  cbn [bind].
  destruct (pack_fields InterfaceDescriptor.fields data) as [bs|e'] eqn:Hbs; cbn [bind];
    [discriminate|].
  intros [= <-]. now apply (pack_fields_Err InterfaceDescriptor.fields data).
Qed.

(** What [InterfaceDescriptor.__bytes__] does once the loop has returned:
    it stores the count in [data[2]], then packs the record and appends
    the joined bytes of the subdescriptors. *)
Lemma interface_bytes_unfold (data : list Z) (subs : list descriptor)
    (parts : list (list byte)) :
  Forall2 (fun d p => snd (descriptor_bytes d) = Ok p) subs parts ->
  exists subs',
    descriptor_bytes (Interface data subs) =
    match list_setitem data 2 (count_endpoints subs) with
    | Err e => (Interface data subs', Err e)
    | Ok data' =>
        (Interface data' subs',
         let* own := Descriptor_bytes InterfaceDescriptor.cls data' in
         Ok (own ++ concat parts))
    end.
Proof.
  intros Hall. cbn [descriptor_bytes].
  destruct (serialize_subdescriptors descriptor_bytes subs 0 []) as [subs' r] eqn:Hloop.
  assert (r = Ok (count_endpoints subs, parts)) as ->.
  { replace r with (snd (subs', r)) by reflexivity. rewrite <- Hloop.
    apply (serialize_subdescriptors_Ok _ descriptor_type_bytes).
    exists parts. auto. }
  exists subs'. reflexivity.
Qed.

(** An interface serializes exactly when its subdescriptors do and its
    record, with the count stored, can be written; the result is that
    record followed by the bytes of the subdescriptors, in list order. *)
Lemma interface_bytes_iff (data : list Z) (subs : list descriptor) (bs : list byte) :
  snd (descriptor_bytes (Interface data subs)) = Ok bs <->
  exists own parts,
    Forall2 (fun d p => snd (descriptor_bytes d) = Ok p) subs parts /\
    Descriptor_bytes InterfaceDescriptor.cls (<[2%nat := count_endpoints subs]> data) = Ok own /\
    bs = own ++ concat parts.
Proof.
  split.
  - cbn [descriptor_bytes].
    destruct (serialize_subdescriptors descriptor_bytes subs 0 []) as [subs' r] eqn:Hloop.
    assert (snd (serialize_subdescriptors descriptor_bytes subs 0 []) = r) as Hr
      by now rewrite Hloop.
    destruct r as [[n out]|e]; [|discriminate].
    apply (serialize_subdescriptors_Ok _ descriptor_type_bytes) in Hr
      as (parts & Hall & -> & ->).
    unfold list_setitem. case_decide; [|discriminate].
    cbn [snd]. intros H. apply bind_Ok in H as (own & Hown & [= <-]).
    exists own, parts. auto.
  - intros (own & parts & Hall & Hown & ->).
    destruct (interface_bytes_unfold data subs parts Hall) as (subs' & ->).
    pose proof (proj1 (interface_record _ _) Hown) as (Hlen & _ & _).
    rewrite length_insert in Hlen.
    unfold list_setitem. case_decide; [|lia].
    cbn [snd]. now rewrite Hown.
Qed.

(** C6.  When the subdescriptors of an interface serialize to [parts]
    (one entry per element of the list, in list order) and the record of
    the interface, with the endpoint count stored, packs to [own], then
    [bytes] returns [own] (9 bytes) immediately followed by the
    concatenation of [parts]: nothing is reordered, and an object that is
    in the list twice is serialized twice. *)
Theorem interface_serialization_order (data : list Z) (subs : list descriptor)
    (own : list byte) (parts : list (list byte)) :
  Forall2 (fun d p => snd (descriptor_bytes d) = Ok p) subs parts ->
  Descriptor_bytes InterfaceDescriptor.cls (<[2%nat := count_endpoints subs]> data) = Ok own ->
  snd (descriptor_bytes (Interface data subs)) = Ok (own ++ concat parts) /\
  length own = 9%nat /\
  length parts = length subs.
Proof.
  intros Hall Hown. split_all.
  - apply interface_bytes_iff. exists own, parts. auto.
  - apply interface_record in Hown as (Hlen & _ & ->).
    cbn [length]. rewrite length_map. lia.
  - symmetry. eapply Forall2_length, Hall.
Qed.

(** An interface with the same endpoint object before and after a
    class-specific descriptor: the endpoint's bytes come twice. *)
Lemma interface_serialization_order_witness :
  snd (descriptor_bytes (Interface hid_fields [bulk_in; class_specific; bulk_in]))
  = Ok ([x09; x04; x00; x00; x02; x03; x00; x00; x00]
        ++ concat [ [x07; x05; x81; x02; x40; x00; x00];
                    [x05; x24; x00; x10; x01];
                    [x07; x05; x81; x02; x40; x00; x00] ]) /\
  length [x09; x04; x00; x00; x02; x03; x00; x00; x00] = 9%nat /\
  length [ [x07; x05; x81; x02; x40; x00; x00];
           [x05; x24; x00; x10; x01];
           [x07; x05; x81; x02; x40; x00; x00] ] = 3%nat.
Proof.
  apply (interface_serialization_order hid_fields [bulk_in; class_specific; bulk_in]).
  - repeat constructor.
  - reflexivity.
Defined.

(** C1, within the width of the field.  Let the subdescriptors of an
    interface serialize and let its record be writable as it stands.
    [bytes] stores the number [k] of direct children of type 5 in
    [data[2]].  When [k <= 255] it returns bytes whose fifth byte
    ([bNumEndpoints]) is [k], whatever the other children and whatever
    the order; when [k > 255] the count does not fit the one-byte field
    and the call fails. *)
Theorem interface_endpoint_count (data : list Z) (subs : list descriptor)
    (parts : list (list byte)) :
  Forall2 (fun d p => snd (descriptor_bytes d) = Ok p) subs parts ->
  is_ok (Descriptor_bytes InterfaceDescriptor.cls data) = true ->
  (exists subs',
     fst (descriptor_bytes (Interface data subs))
     = Interface (<[2%nat := count_endpoints subs]> data) subs') /\
  if count_endpoints subs <=? 255
  then exists bs,
         snd (descriptor_bytes (Interface data subs)) = Ok bs /\
         wire_byte bs 4 = Some (count_endpoints subs)
  else snd (descriptor_bytes (Interface data subs)) = Err ValueOutOfRangeError.
Proof.
  intros Hall Hrec.
  destruct (Descriptor_bytes InterfaceDescriptor.cls data) as [own0|] eqn:Hown0;
    [clear Hrec|discriminate].
  apply interface_record in Hown0 as (Hlen & Hfits & _).
  destruct (interface_bytes_unfold data subs parts Hall) as (subs' & ->).
  unfold list_setitem. case_decide; [|lia].
  set (k := count_endpoints subs). set (data' := <[2%nat := k]> data).
  assert (length data' = 7%nat) as Hlen' by (subst data'; now rewrite length_insert).
  split; [now exists subs'|]. cbn [snd].
  destruct (Z.leb_spec k 255) as [Hk|Hk].
  - pose proof (count_endpoints_nonneg subs) as Hk0. fold k in Hk0.
    assert (Descriptor_bytes InterfaceDescriptor.cls data'
            = Ok (byte_of_Z 9 :: byte_of_Z 4 :: map byte_of_Z data')) as ->.
    { apply interface_record. split_all; [assumption| |reflexivity].
      apply Forall_insert; [assumption|]. apply fits_B. lia. }
    cbn [bind]. eexists. split; [reflexivity|].
    unfold wire_byte.
    change (byte_of_Z 9 :: byte_of_Z 4 :: map byte_of_Z data')
      with ([byte_of_Z 9; byte_of_Z 4] ++ map byte_of_Z data').
    rewrite <- app_assoc, lookup_app_r by (cbn; lia).
    cbn [length Nat.sub].
    rewrite lookup_app_l by (rewrite length_map; lia).
    rewrite list_lookup_fmap. subst data'.
    rewrite list_lookup_insert_eq by lia. cbn.
    now rewrite Z_of_byte_of_Z by lia.
  - destruct (Descriptor_bytes InterfaceDescriptor.cls data') as [own|e] eqn:Hown; cbn [bind].
    + apply interface_record in Hown as (_ & Hall' & _).
      assert (fits B k = true) as Hfit.
      { rewrite Forall_lookup in Hall'. apply (Hall' 2%nat). subst data'.
        apply list_lookup_insert_eq. lia. }
      apply fits_B in Hfit. lia.
    + f_equal. now apply (interface_record_Err data').
Qed.

(** Three endpoints among five children, in mixed order. *)
Lemma interface_endpoint_count_witness :
  (exists subs',
     fst (descriptor_bytes (Interface hid_fields mixed_children))
     = Interface [0; 0; 3; 3; 0; 0; 0] subs') /\
  exists bs,
    snd (descriptor_bytes (Interface hid_fields mixed_children)) = Ok bs /\
    wire_byte bs 4 = Some 3.
Proof.
  apply (interface_endpoint_count hid_fields mixed_children
           [ [x05; x24; x00; x10; x01]; [x07; x05; x81; x02; x40; x00; x00];
             [x05; x24; x00; x10; x01]; [x07; x05; x81; x02; x40; x00; x00];
             [x07; x05; x81; x02; x40; x00; x00] ]).
  - repeat constructor.
  - reflexivity.
Defined.

(** C1, as stated, fails: an interface with 256 endpoints has no
    serialization whose [bNumEndpoints] is 256; [bytes] raises. *)
Lemma interface_256_endpoints :
  count_endpoints (replicate 256 bulk_in) = 256 /\
  InterfaceDescriptor_init {[ "bInterfaceClass" := 3 ]} (Some (replicate 256 bulk_in))
  = Ok (Interface hid_fields (replicate 256 bulk_in)) /\
  snd (descriptor_bytes bulk_in) = Ok [x07; x05; x81; x02; x40; x00; x00] /\
  snd (descriptor_bytes (Interface hid_fields (replicate 256 bulk_in)))
  = Err ValueOutOfRangeError.
Proof. split_all; vm_compute; reflexivity. Qed.

(** The record of a constructed interface can be written as it stands. *)
Lemma InterfaceDescriptor_init_writable (kwargs : gmap string Z)
    (subdescriptors : option (list descriptor)) (data : list Z) (subs : list descriptor) :
  InterfaceDescriptor_init kwargs subdescriptors = Ok (Interface data subs) ->
  is_ok (Descriptor_bytes InterfaceDescriptor.cls data) = true.
Proof.
  unfold InterfaceDescriptor_init. intros H.
  apply bind_Ok in H as (data' & Hdata & [= <- _]).
  apply (Descriptor_init_packs _ _ _ interface_defaults_fit) in Hdata.
  unfold Descriptor_bytes.
  cbn [cls_bLength cls_bDescriptorType cls_fields InterfaceDescriptor.cls].
  change (pack_field B InterfaceDescriptor.bLength) with (Ok (A:=list byte) [byte_of_Z 9]).
  change (pack_field B InterfaceDescriptor.bDescriptorType) with (Ok (A:=list byte) [byte_of_Z 4]).
  cbn [bind]. destruct (pack_fields InterfaceDescriptor.fields data'); [reflexivity|discriminate].
Qed.

(** The interface number may be left out, the interface class may not. *)
Lemma InterfaceDescriptor_init_defaults :
  InterfaceDescriptor_init {[ "bInterfaceClass" := 3 ]} None = Ok (Interface hid_fields []) /\
  InterfaceDescriptor_init {[ "bInterfaceNumber" := 1 ]} None
  = Err (MissingFieldError "bInterfaceClass").
Proof. split; vm_compute; reflexivity. Qed.

(** ** Serializing again *)

(** Induction over descriptors and the subdescriptors of interfaces. *)
Lemma descriptor_induction (P : descriptor -> Prop) :
  (forall c data, P (Fixed c data)) ->
  (forall data subs, Forall P subs -> P (Interface data subs)) ->
  (forall self, P (StringDesc self)) ->
  (forall ty out, P (Foreign ty out)) ->
  forall d, P d.
Proof.
  intros HFixed HInterface HString HForeign.
  fix IH 1. intros [c data|data subs|self|ty out].
  - apply HFixed.
  - apply HInterface. induction subs as [|d subs IHsubs]; constructor.
    + apply IH.
    + apply IHsubs.
  - apply HString.
  - apply HForeign.
Qed.

(** Running the loop again over the subdescriptors it returned changes
    nothing more and gives the same result. *)
Lemma serialize_subdescriptors_again (ds : list descriptor) (count : Z)
    (acc : list (list byte)) :
  Forall (fun d => descriptor_bytes (fst (descriptor_bytes d)) = descriptor_bytes d) ds ->
  serialize_subdescriptors descriptor_bytes
    (fst (serialize_subdescriptors descriptor_bytes ds count acc)) count acc
  = serialize_subdescriptors descriptor_bytes ds count acc.
Proof.
  intros Hall. revert count acc.
  induction Hall as [|d ds Hd _ IH]; intros count acc; [reflexivity|].
  cbn [serialize_subdescriptors].
  pose proof (descriptor_type_bytes d) as Hty.
  destruct (descriptor_bytes d) as [d' [b|e]] eqn:Hdb; cbn [fst] in Hd, Hty.
  - specialize (IH (if descriptor_type d' =? EndpointDescriptor.bDescriptorType
                    then count + 1 else count) (acc ++ [b])).
    destruct (serialize_subdescriptors descriptor_bytes ds _ _) as [rest' r] eqn:Hrest.
    cbn [fst] in IH |- *. cbn [serialize_subdescriptors].
    rewrite Hd. now rewrite IH.
  - cbn [fst serialize_subdescriptors]. now rewrite Hd.
Qed.

(** X13.  [bytes(desc)] twice: the second call finds the object as the first
    left it, leaves it so, and returns what the first returned.  So an
    object that stands in a list more than once contributes the same bytes
    each time, and nothing an earlier serialization stored is relied on. *)
Lemma descriptor_bytes_again (d : descriptor) :
  descriptor_bytes (fst (descriptor_bytes d)) = descriptor_bytes d.
Proof.
  induction d as [c data|data subs IH|self|ty out] using descriptor_induction;
    try reflexivity.
  pose proof (serialize_subdescriptors_again subs 0 [] IH) as Hagain.
  cbn [descriptor_bytes].
  destruct (serialize_subdescriptors descriptor_bytes subs 0 []) as [subs' r] eqn:Hloop.
  cbn [fst] in Hagain.
  destruct r as [[n parts]|e].
  - unfold list_setitem. case_decide as Hlen; cbn [fst descriptor_bytes].
    + rewrite Hagain. unfold list_setitem.
      rewrite length_insert. case_decide; [|contradiction].
      now rewrite list_insert_insert_eq.
    + rewrite Hagain. unfold list_setitem. case_decide; [contradiction|reflexivity].
  - cbn [fst descriptor_bytes]. now rewrite Hagain.
Qed.

(** ** The string descriptor *)

Lemma utf_16_le_encode_Err (s : list Z) (e : exn) :
  utf_16_le_encode s = Err e -> e = UnicodeEncodeError.
Proof.
  induction s as [|c s IH]; cbn [utf_16_le_encode]; [discriminate|].
  unfold encode_char.
  destruct (is_surrogate c); cbn [bind]; [now intros [= <-]|].
  destruct (c <? 0x10000); cbn [bind];
    (destruct (utf_16_le_encode s); cbn [bind]; [discriminate|]);
    intros [= <-]; now apply IH.
Qed.

(** The encoder fails exactly on text with a surrogate code point. *)
Lemma utf_16_le_encode_is_ok (s : list Z) :
  is_ok (utf_16_le_encode s) = forallb (fun c => negb (is_surrogate c)) s.
Proof.
  induction s as [|c s IH]; [reflexivity|].
  cbn [utf_16_le_encode forallb]. unfold encode_char.
  destruct (is_surrogate c); cbn [negb andb bind is_ok]; [reflexivity|].
  rewrite <- IH.
  destruct (c <? 0x10000); cbn [bind]; destruct (utf_16_le_encode s); reflexivity.
Qed.

Lemma code_units_le_bytes (c : Z) (rest : list byte) :
  0 <= c < 0x10000 ->
  code_units (byte_of_Z c :: byte_of_Z (c / 256) :: rest)
  = let* us := code_units rest in Ok (c :: us).
Proof.
  intros Hc. cbn [code_units].
  assert (Z_of_byte (byte_of_Z c) + 256 * Z_of_byte (byte_of_Z (c / 256)) = c) as ->;
    [|reflexivity].
  pose proof (le_value_le_bytes 2 c) as Hle. cbn [le_bytes le_value] in Hle.
  rewrite <- Hle at 3 by (cbn; lia). lia.
Qed.

(** Text without surrogates, every code point up to 0x10FFFF. *)
Lemma utf_16_le_roundtrip (s : list Z) (b : list byte) :
  Forall (fun c => 0 <= c <= 0x10FFFF) s ->
  utf_16_le_encode s = Ok b ->
  utf_16_le_decode b = Ok s.
Proof.
  unfold utf_16_le_decode. intros Hs. revert b.
  induction Hs as [|c s Hc _ IH]; intros b; cbn [utf_16_le_encode].
  - now intros [= <-].
  - intros H. apply bind_Ok in H as (bc & Hbc & H).
    apply bind_Ok in H as (bs & Hbs & [= <-]).
    specialize (IH bs Hbs).
    destruct (code_units bs) as [us|] eqn:Hus; cbn [bind] in IH; [|discriminate].
    unfold encode_char in Hbc.
    destruct (is_surrogate c) eqn:Hsur; [discriminate|].
    unfold is_surrogate in Hsur. apply andb_false_iff in Hsur.
    rewrite Z.leb_gt, Z.leb_gt in Hsur.
    destruct (Z.ltb_spec c 0x10000) as [Hbmp|Hsup]; injection Hbc as <-.
    + cbn [app]. rewrite code_units_le_bytes, Hus by lia. cbn [bind code_points].
      assert (is_high_surrogate c = false) as ->
        by (unfold is_high_surrogate; apply andb_false_iff; rewrite !Z.leb_gt; lia).
      assert (is_low_surrogate c = false) as ->
        by (unfold is_low_surrogate; apply andb_false_iff; rewrite !Z.leb_gt; lia).
      now rewrite IH.
    + pose proof (Z.div_mod (c - 0x10000) 0x400 ltac:(lia)) as Hdm.
      pose proof (Z.mod_pos_bound (c - 0x10000) 0x400 ltac:(lia)) as Hm.
      assert (0 <= (c - 0x10000) / 0x400 < 0x400) as Hd
        by (split; [apply Z.div_pos; lia|apply Z.div_lt_upper_bound; lia]).
      cbn [app]. rewrite code_units_le_bytes, code_units_le_bytes, Hus by lia.
      cbn [bind code_points].
      assert (is_high_surrogate (0xD800 + (c - 0x10000) / 0x400) = true) as ->
        by (unfold is_high_surrogate; apply andb_true_iff; rewrite !Z.leb_le; lia).
      assert (is_low_surrogate (0xDC00 + (c - 0x10000) mod 0x400) = true) as ->
        by (unfold is_low_surrogate; apply andb_true_iff; rewrite !Z.leb_le; lia).
      rewrite IH. cbn [bind]. do 2 f_equal. lia.
Qed.

(** Built from text: the encoded bytes and their number plus two,
    whatever that number is. *)
Lemma init_text (s : list Z) :
  StringDescriptor.__init__ (PyStr s) =
  let* b := utf_16_le_encode s in
  Ok (<["_bLength" := PyInt (Z.of_nat (length b) + 2)]> (<["_bString" := PyBytes b]> ∅)).
Proof.
  unfold StringDescriptor.__init__.
  destruct (utf_16_le_encode s) as [b|e]; cbn [bind]; [|reflexivity].
  unfold getattr. rewrite lookup_insert_eq. reflexivity.
Qed.

(** [__bytes__] on an instance that holds a byte string of [n] bytes and
    an integer length [l]: the length has to fit one byte; the output is
    the length, the type 3 and the [n] bytes. *)
Lemma bytes_of_string (self : instance) (b : list byte) (l : Z) :
  self !! "_bString" = Some (PyBytes b) ->
  self !! "_bLength" = Some (PyInt l) ->
  StringDescriptor.__bytes__ self =
  if fits B l then Ok (byte_of_Z l :: x03 :: b) else Err StructError.
Proof.
  intros Hs Hl. unfold StringDescriptor.__bytes__, StringDescriptor.bLength, getattr.
  rewrite Hs, Hl. cbn [bind py_len]. unfold struct_pack_BBs.
  change (fits B (StringDescriptor.bDescriptorType self)) with true.
  rewrite andb_true_r. destruct (fits B l); [|reflexivity].
  rewrite Nat2Z.id, Nat.sub_diag, take_ge by lia.
  cbn [replicate]. now rewrite app_nil_r.
Qed.

(** C3, as the code has it.  The constructor does not look at the length
    of the text: whenever the text has a UTF-16 encoding it returns an
    instance that holds the encoded bytes and their number plus two, also
    when that exceeds 255, and otherwise it raises the encoder's error.
    The ceiling of one byte only shows in [__bytes__], which returns when
    the length is at most 255 and raises the packer's error above. *)
Theorem string_from_text (s : list Z) :
  match utf_16_le_encode s with
  | Ok b =>
      exists self,
        StringDescriptor.__init__ (PyStr s) = Ok self /\
        self !! "_bString" = Some (PyBytes b) /\
        self !! "_bLength" = Some (PyInt (Z.of_nat (length b) + 2)) /\
        StringDescriptor.__bytes__ self =
        if Z.of_nat (length b) + 2 <=? 255
        then Ok (byte_of_Z (Z.of_nat (length b) + 2) :: x03 :: b)
        else Err StructError
  | Err _ => StringDescriptor.__init__ (PyStr s) = Err UnicodeEncodeError
  end.
Proof.
  rewrite init_text. destruct (utf_16_le_encode s) as [b|e] eqn:Henc; cbn [bind].
  - eexists. split; [reflexivity|].
    assert ((<["_bLength" := PyInt (Z.of_nat (length b) + 2)]>
               (<["_bString" := PyBytes b]> (∅ : instance)))
              !! "_bString" = Some (PyBytes b)) as Hs
      by (rewrite lookup_insert_ne by discriminate; apply lookup_insert_eq).
    split_all; [exact Hs|apply lookup_insert_eq|].
    rewrite (bytes_of_string _ b (Z.of_nat (length b) + 2) Hs) by apply lookup_insert_eq.
    destruct (Z.leb_spec (Z.of_nat (length b) + 2) 255) as [Hle|Hgt].
    + assert (fits B (Z.of_nat (length b) + 2) = true) as -> by (apply fits_B; lia).
      reflexivity.
    + destruct (fits B (Z.of_nat (length b) + 2)) eqn:Hfit; [|reflexivity].
      apply fits_B in Hfit. lia.
  - now rewrite (utf_16_le_encode_Err s e Henc).
Qed.

(** C3, as stated, fails: a text of 127 letters encodes to 254 bytes, two
    more make 256, and the constructor returns an instance of that
    length. *)
Lemma long_text_accepted :
  exists (b : list byte) (self : instance),
    utf_16_le_encode long_text = Ok b /\
    Z.of_nat (length b) + 2 = 256 /\
    StringDescriptor.__init__ (PyStr long_text) = Ok self /\
    self !! "_bLength" = Some (PyInt 256) /\
    StringDescriptor.__bytes__ self = Err StructError.
Proof.
  eexists. eexists. split_all.
  - vm_compute. reflexivity.
  - reflexivity.
  - vm_compute. reflexivity.
  - reflexivity.
  - vm_compute. reflexivity.
Qed.

(** C4.  For a text whose encoding, with the two header bytes, fits the
    one-byte length, the constructor returns an instance whose [__bytes__]
    is the length, the type 3 and the encoded bytes, in that order; the
    text "Hi" gives 06 03 48 00 69 00. *)
Theorem string_descriptor_bytes (s : list Z) (b : list byte) :
  utf_16_le_encode s = Ok b ->
  Z.of_nat (length b) + 2 <= 255 ->
  (exists self,
     StringDescriptor.__init__ (PyStr s) = Ok self /\
     StringDescriptor.__bytes__ self
     = Ok ([byte_of_Z (Z.of_nat (length b) + 2); byte_of_Z 3] ++ b)) /\
  (let* hi := StringDescriptor.__init__ (PyStr (text "Hi")) in
   StringDescriptor.__bytes__ hi) = Ok [x06; x03; x48; x00; x69; x00].
Proof.
  intros Henc Hlen. split; [|vm_compute; reflexivity].
  rewrite init_text, Henc. cbn [bind]. eexists. split; [reflexivity|].
  rewrite (bytes_of_string _ b (Z.of_nat (length b) + 2)).
  - assert (fits B (Z.of_nat (length b) + 2) = true) as ->
      by (apply fits_B; lia).
    reflexivity.
  - rewrite lookup_insert_ne by discriminate. apply lookup_insert_eq.
  - apply lookup_insert_eq.
Qed.

(** A text with a character outside the basic plane: four letters, ten
    bytes of UTF-16, twelve bytes on the wire. *)
Lemma string_descriptor_bytes_witness :
  (exists self,
     StringDescriptor.__init__ (PyStr [0x55; 0x53; 0x42; 0x1F600]) = Ok self /\
     StringDescriptor.__bytes__ self
     = Ok ([x0c; x03] ++ [x55; x00; x53; x00; x42; x00; x3d; xd8; x00; xde])) /\
  (let* hi := StringDescriptor.__init__ (PyStr (text "Hi")) in
   StringDescriptor.__bytes__ hi) = Ok [x06; x03; x48; x00; x69; x00].
Proof.
  apply (string_descriptor_bytes [0x55; 0x53; 0x42; 0x1F600]
           [x55; x00; x53; x00; x42; x00; x3d; xd8; x00; xde]).
  - reflexivity.
  - cbn. lia.
Defined.

(** Clamped bounds: beyond the end of the sequence, every stop is the
    end. *)
Lemma slice_past_end {A : Type} (l : list A) (start i j : Z) :
  Z.of_nat (length l) <= i -> Z.of_nat (length l) <= j ->
  slice l start i = slice l start j.
Proof.
  intros Hi Hj. unfold slice, slice_index.
  destruct (Z.ltb_spec i 0), (Z.ltb_spec j 0); try lia.
  rewrite (Z.min_r i), (Z.min_r j) by lia. reflexivity.
Qed.

(** A slice from 2 to a stop inside the sequence. *)
Lemma slice_from_2 {A : Type} (l : list A) (stop : Z) :
  2 <= stop <= Z.of_nat (length l) ->
  slice l 2 stop = take (Z.to_nat stop - 2) (drop 2 l).
Proof.
  intros Hs. unfold slice, slice_index.
  destruct (Z.ltb_spec stop 0); [lia|].
  change (2 <? 0) with false. cbv iota.
  rewrite Z.min_l, Z.min_l by lia.
  rewrite Z2Nat.inj_sub by lia. reflexivity.
Qed.

(** Built from wire bytes of length at least 2: the length is [raw[0]];
    the constructor raises [ValueError] exactly when [raw[1]] is not 3,
    and otherwise keeps the bytes [raw[2 : 2 + raw[0]]]. *)
Lemma init_wire (raw : list byte) (b0 b1 : byte) (rest : list byte) :
  raw = b0 :: b1 :: rest ->
  StringDescriptor.__init__ (PyBytes raw) =
  if Z_of_byte b1 =? 3
  then Ok (<["_bString" := PyBytes (slice raw 2 (2 + Z_of_byte b0))]>
             (<["_bLength" := PyInt (Z_of_byte b0)]> ∅))
  else Err (ValueError "Sequence not a StringDescriptor").
Proof.
  intros ->. unfold StringDescriptor.__init__. cbn [py_len bind length].
  assert ((1 <? Z.of_nat (S (S (length rest)))) = true) as -> by (apply Z.ltb_lt; lia).
  cbn [py_getitem item lookup list_lookup bind py_ne_int].
  destruct (Z_of_byte b1 =? 3); cbn [negb]; [|reflexivity].
  unfold StringDescriptor.bLength, getattr. rewrite lookup_insert_eq.
  reflexivity.
Qed.

(** C5 at the failing input.  The buffer holds the descriptor of "H"
    (length byte 4) and two more bytes.  The claim keeps [raw[2:4]], the
    one character "H"; the constructor keeps [raw[2:6]], so the instance
    reads as "Hi" and serializes to six bytes under a length byte of 4. *)
Theorem wire_slice_overruns_length :
  slice wire_H_and_more 2 4 = [x48; x00] /\
  StringDescriptor.__init__ (PyBytes wire_H_and_more)
  = Ok (<["_bString" := PyBytes [x48; x00; x69; x00]]> (<["_bLength" := PyInt 4]> ∅)) /\
  StringDescriptor.bString
    (<["_bString" := PyBytes [x48; x00; x69; x00]]> (<["_bLength" := PyInt 4]> ∅))
  = Ok (PyStr (text "Hi")) /\
  utf_16_le_decode (slice wire_H_and_more 2 4) = Ok (text "H") /\
  StringDescriptor.__bytes__
    (<["_bString" := PyBytes [x48; x00; x69; x00]]> (<["_bLength" := PyInt 4]> ∅))
  = Ok [x04; x03; x48; x00; x69; x00].
Proof. split_all; vm_compute; reflexivity. Qed.

(** The slice of the constructor and the slice up to the length byte
    agree when the buffer ends where the descriptor ends (or earlier), and
    differ by the two bytes after the descriptor when the buffer goes on
    for at least two more bytes. *)
Lemma wire_slice_agreement (raw : list byte) (len : Z) :
  0 <= len ->
  (Z.of_nat (length raw) <= len -> slice raw 2 (2 + len) = slice raw 2 len) /\
  (2 <= len -> len + 2 <= Z.of_nat (length raw) ->
   length (slice raw 2 (2 + len)) = S (S (length (slice raw 2 len)))).
Proof.
  intros Hlen. split.
  - intros Hend. apply slice_past_end; lia.
  - intros H2 Hfit. rewrite !slice_from_2 by lia.
    rewrite !length_take, !length_drop. lia.
Qed.

(** C9.  From a sequence that is not text and has at most one element the
    constructor returns without assigning anything: the instance has
    neither [_bString] nor [_bLength], and both [__bytes__] and a read of
    [bString] raise [AttributeError]. *)
Theorem short_sequence_unset (value : pyval) (n : Z) :
  is_str value = false ->
  py_len value = Ok n ->
  n <= 1 ->
  exists self,
    StringDescriptor.__init__ value = Ok self /\
    self !! "_bString" = None /\
    self !! "_bLength" = None /\
    StringDescriptor.__bytes__ self = Err (AttributeError "_bString") /\
    StringDescriptor.bString self = Err (AttributeError "_bString").
Proof.
  intros Hstr Hlen Hn. exists ∅.
  assert ((1 <? n) = false) as Hlt by (apply Z.ltb_ge; lia).
  split_all; try reflexivity.
  unfold StringDescriptor.__init__.
  destruct value; try discriminate Hstr; rewrite Hlen; cbn [bind]; now rewrite Hlt.
Qed.

(** A byte string of one byte. *)
Lemma short_sequence_unset_witness :
  exists self,
    StringDescriptor.__init__ (PyBytes [x05]) = Ok self /\
    self !! "_bString" = None /\
    self !! "_bLength" = None /\
    StringDescriptor.__bytes__ self = Err (AttributeError "_bString") /\
    StringDescriptor.bString self = Err (AttributeError "_bString").
Proof.
  apply (short_sequence_unset (PyBytes [x05]) 1); [reflexivity|reflexivity|lia].
Defined.

(** The constructor assigns to [_bString] and [_bLength] only. *)
Lemma init_attributes (value : pyval) (self : instance) (name : string) :
  StringDescriptor.__init__ value = Ok self ->
  name <> "_bString" -> name <> "_bLength" ->
  self !! name = None.
Proof.
  intros Hinit Hs Hl.
  assert (forall (v w : pyval),
            (<["_bString" := v]> (<["_bLength" := w]> (∅ : instance))) !! name = None) as Hsl
    by (intros; now rewrite !lookup_insert_ne by congruence).
  assert (forall (v w : pyval),
            (<["_bLength" := v]> (<["_bString" := w]> (∅ : instance))) !! name = None) as Hls
    by (intros; now rewrite !lookup_insert_ne by congruence).
  unfold StringDescriptor.__init__ in Hinit.
  destruct value as [z|s|b|l].
  - discriminate.
  - apply bind_Ok in Hinit as (b & _ & Hinit).
    apply bind_Ok in Hinit as (bs & _ & Hinit).
    apply bind_Ok in Hinit as (m & _ & [= <-]). apply Hls.
  - apply bind_Ok in Hinit as (m & _ & Hinit).
    destruct (1 <? m); [|injection Hinit as <-; apply lookup_empty].
    apply bind_Ok in Hinit as (v0 & _ & Hinit).
    apply bind_Ok in Hinit as (v1 & _ & Hinit).
    destruct (py_ne_int v1 3); [discriminate|].
    apply bind_Ok in Hinit as (len & _ & Hinit).
    apply bind_Ok in Hinit as (stop & _ & Hinit).
    apply bind_Ok in Hinit as (sl & _ & [= <-]). apply Hsl.
  - apply bind_Ok in Hinit as (m & _ & Hinit).
    destruct (1 <? m); [|injection Hinit as <-; apply lookup_empty].
    apply bind_Ok in Hinit as (v0 & _ & Hinit).
    apply bind_Ok in Hinit as (v1 & _ & Hinit).
    destruct (py_ne_int v1 3); [discriminate|].
    apply bind_Ok in Hinit as (len & _ & Hinit).
    apply bind_Ok in Hinit as (stop & _ & Hinit).
    apply bind_Ok in Hinit as (sl & _ & [= <-]). apply Hsl.
Qed.

(** What an assignment to [bString] does on an instance without an
    attribute [encoded]. *)
Lemma set_bString_unfold (self : instance) (value : pyval) :
  self !! "encoded" = None ->
  StringDescriptor.set_bString self value =
  match py_encode value with
  | Err e => (self, Err e)
  | Ok b => (<["_bString" := b]> self, Err (AttributeError "encoded"))
  end.
Proof.
  intros Hno. unfold StringDescriptor.set_bString.
  destruct (py_encode value) as [b|e]; [|reflexivity].
  unfold getattr. rewrite lookup_insert_ne by discriminate. now rewrite Hno.
Qed.

(** No instance the class produces has an attribute [encoded]. *)
Lemma reachable_no_encoded (self : instance) :
  reachable self -> self !! "encoded" = None.
Proof.
  induction 1 as [value self Hinit|self value _ IH].
  - apply (init_attributes value self); [assumption|discriminate|discriminate].
  - rewrite (set_bString_unfold self value IH).
    destruct (py_encode value); cbn [fst]; [|assumption].
    now rewrite lookup_insert_ne by discriminate.
Qed.

(** C10, with the encoder's failure told apart.  On every instance the
    class produces, assigning a text to [bString] raises.  When the text
    has no surrogate code point it has a UTF-16 encoding, the exception
    is the [AttributeError] for [encoded], and it comes after the first
    assignment: the instance then holds the encoded new text in
    [_bString] and nothing else has changed, so [bLength] reads as
    before.  When the text has a surrogate code point the encoder raises
    [UnicodeEncodeError] and the instance is left as it was. *)
Theorem bString_assignment_raises (self : instance) (s : list Z) :
  reachable self ->
  is_ok (snd (StringDescriptor.set_bString self (PyStr s))) = false /\
  if forallb (fun c => negb (is_surrogate c)) s
  then exists b,
         utf_16_le_encode s = Ok b /\
         StringDescriptor.set_bString self (PyStr s)
         = (<["_bString" := PyBytes b]> self, Err (AttributeError "encoded")) /\
         fst (StringDescriptor.set_bString self (PyStr s)) !! "_bString"
         = Some (PyBytes b) /\
         StringDescriptor.bLength (fst (StringDescriptor.set_bString self (PyStr s)))
         = StringDescriptor.bLength self
  else StringDescriptor.set_bString self (PyStr s) = (self, Err UnicodeEncodeError).
Proof.
  intros Hreach. pose proof (reachable_no_encoded self Hreach) as Hno.
  rewrite (set_bString_unfold self (PyStr s) Hno). cbn [py_encode].
  pose proof (utf_16_le_encode_is_ok s) as Hok.
  destruct (utf_16_le_encode s) as [b|e] eqn:Henc; cbn [is_ok] in Hok;
    rewrite <- Hok; cbn [bind snd fst is_ok].
  - split; [reflexivity|]. exists b.
    split_all; [reflexivity|reflexivity|apply lookup_insert_eq|].
    unfold StringDescriptor.bLength, getattr.
    now rewrite lookup_insert_ne by discriminate.
  - split; [reflexivity|]. now rewrite (utf_16_le_encode_Err s e Henc).
Qed.

(** The instance of "Hi", assigned the text "USB": the call raises for
    [encoded], the six bytes of "USB" are stored, the length is still the
    6 of "Hi". *)
Lemma bString_assignment_raises_witness :
  is_ok (snd (StringDescriptor.set_bString string_Hi (PyStr (text "USB")))) = false /\
  exists b,
    utf_16_le_encode (text "USB") = Ok b /\
    StringDescriptor.set_bString string_Hi (PyStr (text "USB"))
    = (<["_bString" := PyBytes b]> string_Hi, Err (AttributeError "encoded")) /\
    fst (StringDescriptor.set_bString string_Hi (PyStr (text "USB"))) !! "_bString"
    = Some (PyBytes b) /\
    StringDescriptor.bLength (fst (StringDescriptor.set_bString string_Hi (PyStr (text "USB"))))
    = StringDescriptor.bLength string_Hi.
Proof.
  apply (bString_assignment_raises string_Hi (text "USB")).
  apply (reachable_init (PyStr (text "Hi"))). vm_compute. reflexivity.
Defined.

(** C10, as stated, fails for a text with a lone surrogate: the
    assignment raises in the encoder, before anything is stored, and the
    instance of "Hi" still holds the bytes of "Hi" under the length 6. *)
Lemma lone_surrogate_assignment_is_atomic :
  utf_16_le_encode [0xD800] = Err UnicodeEncodeError /\
  StringDescriptor.__init__ (PyStr (text "Hi")) = Ok string_Hi /\
  StringDescriptor.set_bString string_Hi (PyStr [0xD800])
  = (string_Hi, Err UnicodeEncodeError) /\
  fst (StringDescriptor.set_bString string_Hi (PyStr [0xD800])) !! "_bString"
  = Some (PyBytes [x48; x00; x69; x00]) /\
  fst (StringDescriptor.set_bString string_Hi (PyStr [0xD800])) !! "_bLength"
  = Some (PyInt 6).
Proof. split_all; vm_compute; reflexivity. Qed.

(** After the failed assignment the instance is inconsistent: it stores
    the six bytes of "USB" under the length 6 of "Hi", and serializes to
    eight bytes that announce six. *)
Lemma bString_assignment_not_atomic :
  fst (StringDescriptor.set_bString string_Hi (PyStr (text "USB"))) !! "_bString"
  = Some (PyBytes [x55; x00; x53; x00; x42; x00]) /\
  fst (StringDescriptor.set_bString string_Hi (PyStr (text "USB"))) !! "_bLength"
  = Some (PyInt 6) /\
  StringDescriptor.__bytes__ (fst (StringDescriptor.set_bString string_Hi (PyStr (text "USB"))))
  = Ok [x06; x03; x55; x00; x53; x00; x42; x00].
Proof. split_all; vm_compute; reflexivity. Qed.

(** * Further properties of the code *)

(** ** Text, through the string descriptor *)

(** The encoder writes two or four bytes for every code point, two for
    a code point of the basic plane. *)
Lemma utf_16_le_encode_length (s : list Z) (b : list byte) :
  utf_16_le_encode s = Ok b ->
  (2 * length s <= length b <= 4 * length s)%nat /\
  (Forall (fun c => c < 0x10000) s -> length b = (2 * length s)%nat).
Proof.
  revert b. induction s as [|c s IH]; intros b; cbn [utf_16_le_encode].
  - intros [= <-]. cbn. split; [lia|reflexivity].
  - intros H. apply bind_Ok in H as (bc & Hbc & H).
    apply bind_Ok in H as (bs & Hbs & [= <-]).
    destruct (IH bs Hbs) as [Hbounds Hbmp]. rewrite length_app. cbn [length].
    unfold encode_char in Hbc. destruct (is_surrogate c); [discriminate|].
    destruct (Z.ltb_spec c 0x10000) as [Hc|Hc]; injection Hbc as <-;
      cbn [length app le_bytes].
    + split; [lia|]. intros Hall. apply Forall_cons in Hall as [_ Hall].
      rewrite (Hbmp Hall). lia.
    + split; [lia|]. intros Hall. apply Forall_cons in Hall as [Hlt _]. lia.
Qed.

(** X1.  The constructor accepts a text exactly when none of its code
    points is a surrogate; it then holds the text: reading [bString]
    gives the text back, whatever its length. *)
Theorem text_read_back (s : list Z) :
  Forall (fun c => 0 <= c <= 0x10FFFF) s ->
  is_ok (StringDescriptor.__init__ (PyStr s))
  = forallb (fun c => negb (is_surrogate c)) s /\
  (forall self,
     StringDescriptor.__init__ (PyStr s) = Ok self ->
     StringDescriptor.bString self = Ok (PyStr s)).
Proof.
  intros Hrange. rewrite init_text. split.
  - rewrite <- utf_16_le_encode_is_ok.
    destruct (utf_16_le_encode s); reflexivity.
  - intros self Hinit. apply bind_Ok in Hinit as (b & Hb & [= <-]).
    unfold StringDescriptor.bString, getattr.
    rewrite lookup_insert_ne by discriminate. rewrite lookup_insert_eq. cbn [bind].
    now rewrite (utf_16_le_roundtrip s b Hrange Hb).
Qed.

(** A text with a character outside the basic plane. *)
Lemma text_read_back_witness :
  is_ok (StringDescriptor.__init__ (PyStr [0x55; 0x53; 0x42; 0x1F600]))
  = forallb (fun c => negb (is_surrogate c)) [0x55; 0x53; 0x42; 0x1F600] /\
  (forall self,
     StringDescriptor.__init__ (PyStr [0x55; 0x53; 0x42; 0x1F600]) = Ok self ->
     StringDescriptor.bString self = Ok (PyStr [0x55; 0x53; 0x42; 0x1F600])).
Proof.
  apply (text_read_back [0x55; 0x53; 0x42; 0x1F600]).
  repeat constructor; lia.
Defined.

(** X2.  How long a text may be.  A text of at most 63 code points always
    serializes, a text of more than 126 never does, and for a text of the
    basic plane the limit is exactly 126 code points. *)
Theorem text_length_limit (s : list Z) (self : instance) :
  StringDescriptor.__init__ (PyStr s) = Ok self ->
  ((length s <= 63)%nat -> is_ok (StringDescriptor.__bytes__ self) = true) /\
  ((126 < length s)%nat -> is_ok (StringDescriptor.__bytes__ self) = false) /\
  (Forall (fun c => c < 0x10000) s ->
   is_ok (StringDescriptor.__bytes__ self) = (length s <=? 126)%nat).
Proof.
  rewrite init_text. intros Hinit. apply bind_Ok in Hinit as (b & Hb & [= <-]).
  rewrite (bytes_of_string _ b (Z.of_nat (length b) + 2))
    by (first [apply lookup_insert_eq
              |rewrite lookup_insert_ne by discriminate; apply lookup_insert_eq]).
  destruct (utf_16_le_encode_length s b Hb) as [Hbounds Hbmp].
  assert (is_ok (if fits B (Z.of_nat (length b) + 2)
                 then Ok (byte_of_Z (Z.of_nat (length b) + 2) :: x03 :: b)
                 else Err StructError)
          = (length b <=? 253)%nat) as ->.
  { destruct (fits B (Z.of_nat (length b) + 2)) eqn:Hfit; cbn [is_ok]; symmetry.
    - apply fits_B in Hfit. apply Nat.leb_le. lia.
    - apply Nat.leb_gt. destruct (Nat.le_gt_cases (length b) 253) as [Hle|Hgt]; [|lia].
      assert (fits B (Z.of_nat (length b) + 2) = true) by (apply fits_B; lia).
      congruence. }
  split_all.
  - intros Hlen. apply Nat.leb_le. lia.
  - intros Hlen. apply Nat.leb_gt. lia.
  - intros Hall. rewrite (Hbmp Hall).
    destruct (Nat.leb_spec (length s) 126); [apply Nat.leb_le|apply Nat.leb_gt]; lia.
Qed.

Lemma text_length_limit_witness :
  ((length (text "Hi") <= 63)%nat -> is_ok (StringDescriptor.__bytes__ string_Hi) = true) /\
  ((126 < length (text "Hi"))%nat -> is_ok (StringDescriptor.__bytes__ string_Hi) = false) /\
  (Forall (fun c => c < 0x10000) (text "Hi") ->
   is_ok (StringDescriptor.__bytes__ string_Hi) = (length (text "Hi") <=? 126)%nat).
Proof.
  apply (text_length_limit (text "Hi") string_Hi). vm_compute. reflexivity.
Defined.

(** ** Wire bytes, through the string descriptor *)

Lemma slice_all_from_2 {A : Type} (x y : A) (rest : list A) (stop : Z) :
  Z.of_nat (length rest) + 2 <= stop ->
  slice (x :: y :: rest) 2 stop = rest.
Proof.
  intros Hstop.
  rewrite (slice_past_end _ 2 stop (Z.of_nat (length (x :: y :: rest))))
    by (cbn [length]; lia).
  rewrite slice_from_2 by (cbn [length]; lia).
  cbn [length drop]. apply take_ge. lia.
Qed.

Lemma byte_3 (b : byte) : Z_of_byte b = 3 -> b = x03.
Proof. intros H. rewrite <- (byte_of_Z_of_byte b), H. reflexivity. Qed.

(** X3.  Serialize, then parse.  For a text that serializes, building a
    descriptor from the serialized bytes gives an instance equal to the
    one built from the text: same stored bytes, same length. *)
Theorem serialize_then_parse (s : list Z) (self : instance) (raw : list byte) :
  StringDescriptor.__init__ (PyStr s) = Ok self ->
  StringDescriptor.__bytes__ self = Ok raw ->
  StringDescriptor.__init__ (PyBytes raw) = Ok self.
Proof.
  rewrite init_text. intros Hinit. apply bind_Ok in Hinit as (b & Hb & [= <-]).
  rewrite (bytes_of_string _ b (Z.of_nat (length b) + 2))
    by (first [apply lookup_insert_eq
              |rewrite lookup_insert_ne by discriminate; apply lookup_insert_eq]).
  destruct (fits B (Z.of_nat (length b) + 2)) eqn:Hfit; [|discriminate].
  apply fits_B in Hfit. intros [= <-].
  rewrite (init_wire _ (byte_of_Z (Z.of_nat (length b) + 2)) x03 b eq_refl).
  change (Z_of_byte x03 =? 3) with true. cbv iota.
  rewrite Z_of_byte_of_Z by lia.
  rewrite slice_all_from_2 by lia.
  f_equal.
Qed.

Lemma serialize_then_parse_witness :
  StringDescriptor.__init__ (PyBytes [x06; x03; x48; x00; x69; x00]) = Ok string_Hi.
Proof.
  apply (serialize_then_parse (text "Hi") string_Hi [x06; x03; x48; x00; x69; x00]);
    vm_compute; reflexivity.
Defined.

(** X4.  Parse, then serialize.  From a buffer of at least two bytes whose
    second byte is 3 and which is no longer than its first byte says, the
    constructor returns an instance whose serialization is the buffer. *)
Theorem parse_then_serialize (b0 b1 : byte) (rest : list byte) :
  Z_of_byte b1 = 3 ->
  Z.of_nat (length (b0 :: b1 :: rest)) <= Z_of_byte b0 ->
  exists self,
    StringDescriptor.__init__ (PyBytes (b0 :: b1 :: rest)) = Ok self /\
    StringDescriptor.__bytes__ self = Ok (b0 :: b1 :: rest).
Proof.
  intros H3 Hlen. cbn [length] in Hlen.
  rewrite (init_wire _ b0 b1 rest eq_refl), H3. change (3 =? 3) with true. cbv iota.
  eexists. split; [reflexivity|].
  rewrite slice_all_from_2 by lia.
  rewrite (bytes_of_string _ rest (Z_of_byte b0))
    by (first [apply lookup_insert_eq
              |rewrite lookup_insert_ne by discriminate; apply lookup_insert_eq]).
  assert (fits B (Z_of_byte b0) = true) as ->
    by (apply fits_B; pose proof (Z_of_byte_range b0); lia).
  now rewrite byte_of_Z_of_byte, (byte_3 b1 H3).
Qed.

Lemma parse_then_serialize_witness :
  exists self,
    StringDescriptor.__init__ (PyBytes [x06; x03; x48; x00; x69; x00]) = Ok self /\
    StringDescriptor.__bytes__ self = Ok [x06; x03; x48; x00; x69; x00].
Proof.
  apply (parse_then_serialize x06 x03 [x48; x00; x69; x00]); [reflexivity|cbn; lia].
Defined.

(** A byte string of odd length is not UTF-16. *)
Lemma code_units_is_ok (bs : list byte) :
  is_ok (code_units bs) = Nat.even (length bs).
Proof.
  assert (forall n (l : list byte), (length l <= n)%nat ->
            is_ok (code_units l) = Nat.even (length l)) as Hn.
  { induction n as [|n IH]; intros [|lo [|hi l]] Hlen; cbn [length] in Hlen;
      try reflexivity; try lia.
    cbn [code_units length Nat.even]. rewrite <- (IH l) by lia.
    destruct (code_units l); reflexivity. }
  apply (Hn (length bs)). lia.
Qed.

Lemma utf_16_le_decode_Err (bs : list byte) (e : exn) :
  utf_16_le_decode bs = Err e -> e = UnicodeDecodeError.
Proof.
  assert (forall l e', code_units l = Err e' -> e' = UnicodeDecodeError) as Hunits.
  { intros l e'.
    assert (forall n (k : list byte), (length k <= n)%nat ->
              code_units k = Err e' -> e' = UnicodeDecodeError) as Hn.
    { induction n as [|n IH]; intros [|lo [|hi k]] Hlen; cbn [length] in Hlen;
        cbn [code_units]; try discriminate; try lia; try (now intros [= <-]).
      destruct (code_units k) as [us|e''] eqn:Hk; cbn [bind]; [discriminate|].
      intros [= <-]. apply (IH k); [lia|assumption]. }
    apply (Hn (length l)). lia. }
  assert (forall us e', code_points us = Err e' -> e' = UnicodeDecodeError) as Hpoints.
  { intros us e'.
    assert (forall n (k : list Z), (length k <= n)%nat ->
              code_points k = Err e' -> e' = UnicodeDecodeError) as Hn.
    { induction n as [|n IH]; intros [|u k] Hlen; cbn [length] in Hlen;
        cbn [code_points]; try discriminate; try lia.
      destruct (is_high_surrogate u).
      - destruct k as [|l k]; [now intros [= <-]|]. cbn [length] in Hlen.
        destruct (is_low_surrogate l); [|now intros [= <-]].
        destruct (code_points k) as [cs|e''] eqn:Hk; cbn [bind]; [discriminate|].
        intros [= <-]. apply (IH k); [lia|assumption].
      - destruct (is_low_surrogate u); [now intros [= <-]|].
        destruct (code_points k) as [cs|e''] eqn:Hk; cbn [bind]; [discriminate|].
        intros [= <-]. apply (IH k); [lia|assumption]. }
    apply (Hn (length us)). lia. }
  unfold utf_16_le_decode.
  destruct (code_units bs) as [us|e'] eqn:Hbs; cbn [bind].
  - apply Hpoints.
  - intros [= <-]. now apply (Hunits bs).
Qed.

(** X5.  The constructor does not look at the payload of wire bytes.  A
    buffer whose second byte is 3, no longer than its first byte says,
    with an odd number of payload bytes, is accepted and serializes back
    to itself; only reading [bString] raises, in the decoder. *)
Theorem odd_payload_is_accepted (b0 b1 : byte) (rest : list byte) :
  Z_of_byte b1 = 3 ->
  Z.of_nat (length (b0 :: b1 :: rest)) <= Z_of_byte b0 ->
  Nat.odd (length rest) = true ->
  exists self,
    StringDescriptor.__init__ (PyBytes (b0 :: b1 :: rest)) = Ok self /\
    StringDescriptor.__bytes__ self = Ok (b0 :: b1 :: rest) /\
    StringDescriptor.bString self = Err UnicodeDecodeError.
Proof.
  intros H3 Hlen Hodd. pose proof Hlen as Hlen'. cbn [length] in Hlen'.
  rewrite (init_wire _ b0 b1 rest eq_refl), H3. change (3 =? 3) with true. cbv iota.
  rewrite slice_all_from_2 by lia.
  eexists. split_all; [reflexivity| |].
  - rewrite (bytes_of_string _ rest (Z_of_byte b0))
      by (first [apply lookup_insert_eq
                |rewrite lookup_insert_ne by discriminate; apply lookup_insert_eq]).
    assert (fits B (Z_of_byte b0) = true) as ->
      by (apply fits_B; pose proof (Z_of_byte_range b0); lia).
    now rewrite byte_of_Z_of_byte, (byte_3 b1 H3).
  - unfold StringDescriptor.bString, getattr. rewrite lookup_insert_eq. cbn [bind].
    destruct (utf_16_le_decode rest) as [t|e] eqn:Hdec; cbn [bind].
    + unfold utf_16_le_decode in Hdec. pose proof (code_units_is_ok rest) as Hok.
      rewrite <- Nat.negb_odd, Hodd in Hok.
      destruct (code_units rest); [discriminate Hok|discriminate Hdec].
    + now rewrite (utf_16_le_decode_Err rest e Hdec).
Qed.

Lemma odd_payload_is_accepted_witness :
  exists self,
    StringDescriptor.__init__ (PyBytes [x05; x03; x48; x00; x69]) = Ok self /\
    StringDescriptor.__bytes__ self = Ok [x05; x03; x48; x00; x69] /\
    StringDescriptor.bString self = Err UnicodeDecodeError.
Proof.
  apply (odd_payload_is_accepted x05 x03 [x48; x00; x69]);
    [reflexivity|cbn; lia|reflexivity].
Defined.

(** ** Interfaces: what a call of [bytes] returns and leaves behind *)

Lemma drop_record (own rest : list byte) :
  length own = 9%nat -> drop 9 (own ++ rest) = rest.
Proof. intros H. rewrite <- H. apply drop_app_length. Qed.

(** X6.  Whatever [bytes] returns for an interface is well formed: the
    nine bytes of the record, starting with 9 and 4 and carrying the
    number of endpoint children (at most 255) in the fifth byte, then the
    bytes of the subdescriptors and nothing else; so its length is 9 plus
    the lengths of the serialized subdescriptors. *)
Theorem interface_output_shape (data : list Z) (subs : list descriptor) (bs : list byte) :
  snd (descriptor_bytes (Interface data subs)) = Ok bs ->
  exists parts,
    Forall2 (fun d p => snd (descriptor_bytes d) = Ok p) subs parts /\
    length bs = (9 + sum_list (length <$> parts))%nat /\
    wire_byte bs 0 = Some InterfaceDescriptor.bLength /\
    wire_byte bs 1 = Some InterfaceDescriptor.bDescriptorType /\
    wire_byte bs 4 = Some (count_endpoints subs) /\
    count_endpoints subs <= 255 /\
    drop 9 bs = concat parts.
Proof.
  intros Hbs. apply interface_bytes_iff in Hbs as (own & parts & Hall & Hown & ->).
  apply interface_record in Hown as (Hlen & Hfits & ->).
  rewrite length_insert in Hlen.
  assert (fits B (count_endpoints subs) = true) as Hk.
  { rewrite Forall_lookup in Hfits. apply (Hfits 2%nat).
    apply list_lookup_insert_eq. lia. }
  apply fits_B in Hk.
  set (data' := <[2%nat := count_endpoints subs]> data) in *.
  assert (length data' = 7%nat) as Hlen' by (subst data'; now rewrite length_insert).
  exists parts. split_all.
  - assumption.
  - rewrite length_app. cbn [length]. rewrite length_map, Hlen'.
    f_equal. clear. induction parts as [|p parts IH]; [reflexivity|].
    cbn [concat fmap list_fmap sum_list]. rewrite length_app.
    cbn [sum_list] in IH. rewrite IH. reflexivity.
  - reflexivity.
  - reflexivity.
  - unfold wire_byte.
    change (byte_of_Z 9 :: byte_of_Z 4 :: map byte_of_Z data')
      with ([byte_of_Z 9; byte_of_Z 4] ++ map byte_of_Z data').
    rewrite <- app_assoc, lookup_app_r by (cbn; lia).
    cbn [length Nat.sub].
    rewrite lookup_app_l by (rewrite length_map; lia).
    rewrite list_lookup_fmap. subst data'.
    rewrite list_lookup_insert_eq by lia. cbn.
    now rewrite Z_of_byte_of_Z by lia.
  - lia.
  - apply drop_record. cbn [length]. rewrite length_map. lia.
Qed.

Lemma interface_output_shape_witness :
  exists parts,
    Forall2 (fun d p => snd (descriptor_bytes d) = Ok p) mixed_children parts /\
    length [x09; x04; x00; x00; x03; x03; x00; x00; x00;
            x05; x24; x00; x10; x01; x07; x05; x81; x02; x40; x00; x00;
            x05; x24; x00; x10; x01; x07; x05; x81; x02; x40; x00; x00;
            x07; x05; x81; x02; x40; x00; x00]
    = (9 + sum_list (length <$> parts))%nat /\
    wire_byte [x09; x04; x00; x00; x03; x03; x00; x00; x00;
               x05; x24; x00; x10; x01; x07; x05; x81; x02; x40; x00; x00;
               x05; x24; x00; x10; x01; x07; x05; x81; x02; x40; x00; x00;
               x07; x05; x81; x02; x40; x00; x00] 0
    = Some InterfaceDescriptor.bLength /\
    wire_byte [x09; x04; x00; x00; x03; x03; x00; x00; x00;
               x05; x24; x00; x10; x01; x07; x05; x81; x02; x40; x00; x00;
               x05; x24; x00; x10; x01; x07; x05; x81; x02; x40; x00; x00;
               x07; x05; x81; x02; x40; x00; x00] 1
    = Some InterfaceDescriptor.bDescriptorType /\
    wire_byte [x09; x04; x00; x00; x03; x03; x00; x00; x00;
               x05; x24; x00; x10; x01; x07; x05; x81; x02; x40; x00; x00;
               x05; x24; x00; x10; x01; x07; x05; x81; x02; x40; x00; x00;
               x07; x05; x81; x02; x40; x00; x00] 4
    = Some (count_endpoints mixed_children) /\
    count_endpoints mixed_children <= 255 /\
    drop 9 [x09; x04; x00; x00; x03; x03; x00; x00; x00;
            x05; x24; x00; x10; x01; x07; x05; x81; x02; x40; x00; x00;
            x05; x24; x00; x10; x01; x07; x05; x81; x02; x40; x00; x00;
            x07; x05; x81; x02; x40; x00; x00]
    = concat parts.
Proof.
  apply (interface_output_shape hid_fields mixed_children). vm_compute. reflexivity.
Defined.

(** The loop stops at the first subdescriptor whose [bytes] raises: the
    ones before it have been serialized, the ones after it are not
    touched. *)
Lemma serialize_subdescriptors_stops
    (pre : list descriptor) (d : descriptor) (post : list descriptor)
    (parts : list (list byte)) (e : exn) (count : Z) (acc : list (list byte)) :
  Forall2 (fun x p => snd (descriptor_bytes x) = Ok p) pre parts ->
  snd (descriptor_bytes d) = Err e ->
  exists pre',
    serialize_subdescriptors descriptor_bytes (pre ++ d :: post) count acc
    = (pre' ++ fst (descriptor_bytes d) :: post, Err e) /\
    length pre' = length pre.
Proof.
  intros Hall Hd. revert count acc.
  induction Hall as [|x p pre parts Hx _ IH]; intros count acc.
  - exists []. cbn [app serialize_subdescriptors length].
    destruct (descriptor_bytes d) as [d' r]. cbn [snd fst] in *. subst r. auto.
  - cbn [app serialize_subdescriptors].
    destruct (descriptor_bytes x) as [x' r]. cbn [snd] in Hx. subst r.
    destruct (IH (if descriptor_type x' =? EndpointDescriptor.bDescriptorType
                  then count + 1 else count) (acc ++ [p])) as (pre' & -> & Hlen).
    exists (x' :: pre'). cbn [app length]. auto.
Qed.

(** X7.  When the [bytes] of a subdescriptor raises, the [bytes] of the
    interface raises the same exception, provided the subdescriptors
    before it serialize.  The interface has then not stored a count (its
    fields are as before), and the subdescriptors after the failing one
    have not been touched. *)
Theorem interface_child_failure (data : list Z)
    (pre : list descriptor) (d : descriptor) (post : list descriptor)
    (parts : list (list byte)) (e : exn) :
  Forall2 (fun x p => snd (descriptor_bytes x) = Ok p) pre parts ->
  snd (descriptor_bytes d) = Err e ->
  exists pre',
    descriptor_bytes (Interface data (pre ++ d :: post))
    = (Interface data (pre' ++ fst (descriptor_bytes d) :: post), Err e) /\
    length pre' = length pre.
Proof.
  intros Hall Hd.
  destruct (serialize_subdescriptors_stops pre d post parts e 0 [] Hall Hd)
    as (pre' & Hloop & Hlen).
  exists pre'. cbn [descriptor_bytes]. rewrite Hloop. auto.
Qed.

Lemma interface_child_failure_witness :
  exists pre',
    descriptor_bytes (Interface hid_fields ([bulk_in] ++ broken :: [bulk_in]))
    = (Interface hid_fields (pre' ++ fst (descriptor_bytes broken) :: [bulk_in]),
       Err TypeError) /\
    length pre' = length [bulk_in].
Proof.
  apply (interface_child_failure hid_fields [bulk_in] broken [bulk_in]
           [ [x07; x05; x81; x02; x40; x00; x00] ]).
  - repeat constructor.
  - reflexivity.
Defined.

Lemma count_updated_refl (d : descriptor) : count_updated d d.
Proof.
  induction d as [c data|data subs IH|self|ty out] using descriptor_induction;
    try constructor; auto.
  induction IH; constructor; auto.
Qed.

Lemma serialize_subdescriptors_updates (ds : list descriptor) (count : Z)
    (acc : list (list byte)) :
  Forall (fun d => count_updated d (fst (descriptor_bytes d))) ds ->
  Forall2 count_updated ds (fst (serialize_subdescriptors descriptor_bytes ds count acc)).
Proof.
  intros Hall. revert count acc.
  induction Hall as [|d ds Hd _ IH]; intros count acc; [constructor|].
  cbn [serialize_subdescriptors].
  destruct (descriptor_bytes d) as [d' [b|e]]; cbn [fst] in Hd.
  - specialize (IH (if descriptor_type d' =? EndpointDescriptor.bDescriptorType
                    then count + 1 else count) (acc ++ [b])).
    destruct (serialize_subdescriptors descriptor_bytes ds _ _) as [rest' r].
    cbn [fst] in IH |- *. now constructor.
  - cbn [fst]. constructor; [assumption|].
    clear. induction ds; constructor; auto using count_updated_refl.
Qed.

(** X8.  What [bytes] may change.  After the call, whether it returned
    or raised, the object is as before except for the third field
    ([bNumEndpoints]) of interfaces, at any depth: no other field, no
    list of subdescriptors, no string descriptor and no other object is
    changed, added or removed. *)
Theorem bytes_only_updates_counts (d : descriptor) :
  count_updated d (fst (descriptor_bytes d)).
Proof.
  induction d as [c data|data subs IH|self|ty out] using descriptor_induction;
    try (cbn; constructor).
  pose proof (serialize_subdescriptors_updates subs 0 [] IH) as Hsubs.
  cbn [descriptor_bytes].
  destruct (serialize_subdescriptors descriptor_bytes subs 0 []) as [subs' [[n parts]|e]];
    cbn [fst] in Hsubs.
  - unfold list_setitem. case_decide; cbn [fst].
    + constructor; [apply length_insert| |assumption].
      intros i Hi. apply list_lookup_insert_ne. congruence.
    + constructor; auto.
  - cbn [fst]. constructor; auto.
Qed.

(** ** The accessors *)

(** Replacing the value of a first field of one byte replaces the third
    byte of the record, or makes the record unwritable. *)
Lemma Descriptor_bytes_first_field (c : descriptor_class) (f : field) (fs : list field)
    (v0 v : Z) (rest : list Z) (bs : list byte) :
  cls_fields c = f :: fs -> ffmt f = B ->
  Descriptor_bytes c (v0 :: rest) = Ok bs ->
  Descriptor_bytes c (v :: rest)
  = if fits B v then Ok (<[2%nat := byte_of_Z v]> bs) else Err ValueOutOfRangeError.
Proof.
  intros Hfields HB. unfold Descriptor_bytes. rewrite Hfields.
  cbn [pack_fields]. rewrite HB. intros H.
  apply bind_Ok in H as (h0 & Hh0 & H). apply bind_Ok in H as (h1 & Hh1 & H).
  apply bind_Ok in H as (body & Hbody & [= <-]).
  apply bind_Ok in Hbody as (b0 & Hb0 & Hbody).
  apply bind_Ok in Hbody as (tail & Htail & [= <-]).
  apply pack_field_Ok in Hh0 as [Hf0 ->]. apply pack_field_Ok in Hh1 as [Hf1 ->].
  apply pack_field_Ok in Hb0 as [_ ->].
  unfold pack_field at 1 2. rewrite Hf0, Hf1. cbn [bind width le_bytes app].
  unfold pack_field. destruct (fits B v); cbn [bind]; [|reflexivity].
  rewrite Htail. reflexivity.
Qed.

(** X9.  Assigning [bEndpointAddress] on an endpoint that serializes.
    The assignment is not checked: it always succeeds and the property
    then reads the new value.  A value from 0 to 255 becomes the third
    byte of the serialization and nothing else changes; with any other
    value the endpoint no longer serializes. *)
Theorem set_bEndpointAddress_bytes (data : list Z) (bs : list byte) (value : Z) :
  snd (descriptor_bytes (Fixed EndpointDescriptor.cls data)) = Ok bs ->
  exists data',
    set_bEndpointAddress data value = Ok data' /\
    bEndpointAddress data' = Ok value /\
    snd (descriptor_bytes (Fixed EndpointDescriptor.cls data'))
    = if fits B value then Ok (<[2%nat := byte_of_Z value]> bs)
      else Err ValueOutOfRangeError.
Proof.
  cbn [descriptor_bytes snd]. intros Hbs.
  destruct data as [|v0 rest].
  { unfold Descriptor_bytes in Hbs. cbn in Hbs. discriminate. }
  exists (value :: rest). split_all; try reflexivity.
  now apply (Descriptor_bytes_first_field EndpointDescriptor.cls
               (Field "bEndpointAddress" B None) (tail EndpointDescriptor.fields) v0).
Qed.

Lemma set_bEndpointAddress_bytes_witness :
  exists data',
    set_bEndpointAddress [0x81; 2; 0x40; 0] 0x02 = Ok data' /\
    bEndpointAddress data' = Ok 0x02 /\
    snd (descriptor_bytes (Fixed EndpointDescriptor.cls data'))
    = if fits B 0x02
      then Ok (<[2%nat := byte_of_Z 0x02]> [x07; x05; x81; x02; x40; x00; x00])
      else Err ValueOutOfRangeError.
Proof.
  apply (set_bEndpointAddress_bytes [0x81; 2; 0x40; 0] [x07; x05; x81; x02; x40; x00; x00]).
  reflexivity.
Defined.

(** X10.  Assigning [bInterfaceNumber] on an interface that serializes.
    The assignment is not checked: it always succeeds and the property
    then reads the new value.  A value from 0 to 255 becomes the third
    byte of the serialization and nothing else changes, the bytes of the
    subdescriptors included; with any other value the interface no longer
    serializes. *)
Theorem set_bInterfaceNumber_bytes (data : list Z) (subs : list descriptor)
    (bs : list byte) (value : Z) :
  snd (descriptor_bytes (Interface data subs)) = Ok bs ->
  exists data',
    set_bInterfaceNumber data value = Ok data' /\
    bInterfaceNumber data' = Ok value /\
    snd (descriptor_bytes (Interface data' subs))
    = if fits B value then Ok (<[2%nat := byte_of_Z value]> bs)
      else Err ValueOutOfRangeError.
Proof.
  intros Hbs. apply interface_bytes_iff in Hbs as (own & parts & Hall & Hown & ->).
  pose proof (proj1 (interface_record _ _) Hown) as (Hlen & _ & Hshape).
  rewrite length_insert in Hlen.
  destruct data as [|v0 rest]; [discriminate Hlen|]. cbn [length] in Hlen.
  exists (value :: rest). split_all; try reflexivity.
  destruct (interface_bytes_unfold (value :: rest) subs parts Hall) as (subs' & ->).
  unfold list_setitem. case_decide as Hlt; [|cbn [length] in Hlt; lia].
  cbn [snd].
  change (<[2%nat := count_endpoints subs]> (value :: rest))
    with (value :: <[1%nat := count_endpoints subs]> rest).
  change (<[2%nat := count_endpoints subs]> (v0 :: rest))
    with (v0 :: <[1%nat := count_endpoints subs]> rest) in Hown.
  rewrite (Descriptor_bytes_first_field InterfaceDescriptor.cls
             (Field "bInterfaceNumber" B (Some 0)) (tail InterfaceDescriptor.fields)
             v0 value _ own eq_refl eq_refl Hown).
  destruct (fits B value); cbn [bind]; [|reflexivity].
  rewrite insert_app_l; [reflexivity|].
  rewrite Hshape. cbn [length]. rewrite length_map, length_insert. cbn [length]. lia.
Qed.

Lemma set_bInterfaceNumber_bytes_witness :
  exists data',
    set_bInterfaceNumber hid_fields 1 = Ok data' /\
    bInterfaceNumber data' = Ok 1 /\
    snd (descriptor_bytes (Interface data' [bulk_in]))
    = if fits B 1
      then Ok (<[2%nat := byte_of_Z 1]>
                 [x09; x04; x00; x00; x01; x03; x00; x00; x00;
                  x07; x05; x81; x02; x40; x00; x00])
      else Err ValueOutOfRangeError.
Proof.
  apply (set_bInterfaceNumber_bytes hid_fields [bulk_in]
           [x09; x04; x00; x00; x01; x03; x00; x00; x00;
            x07; x05; x81; x02; x40; x00; x00]).
  reflexivity.
Defined.

(** ** Constructed instances *)

(** X11.  An interface from its constructor.  When the given
    subdescriptors (none, when the keyword is left out) serialize and at
    most 255 of them are endpoints, the interface serializes: its record
    carries the interface number passed (0 when left out), the number of
    endpoints and the interface class passed, and the bytes of the
    subdescriptors follow the nine bytes of the record. *)
Theorem constructed_interface_bytes (kwargs : gmap string Z)
    (subdescriptors : option (list descriptor)) (i : descriptor)
    (parts : list (list byte)) :
  InterfaceDescriptor_init kwargs subdescriptors = Ok i ->
  Forall2 (fun d p => snd (descriptor_bytes d) = Ok p) (default [] subdescriptors) parts ->
  count_endpoints (default [] subdescriptors) <= 255 ->
  exists bs,
    snd (descriptor_bytes i) = Ok bs /\
    wire_byte bs 2 = Some (default 0 (kwargs !! "bInterfaceNumber")) /\
    wire_byte bs 4 = Some (count_endpoints (default [] subdescriptors)) /\
    wire_byte bs 5 = kwargs !! "bInterfaceClass" /\
    drop 9 bs = concat parts.
Proof.
  unfold InterfaceDescriptor_init. intros Hinit Hall Hk.
  apply bind_Ok in Hinit as (data & Hdata & [= <-]).
  set (subs := default [] subdescriptors) in *.
  replace (match subdescriptors with Some l => l | None => [] end) with subs
    by (subst subs; now destruct subdescriptors).
  pose proof (count_endpoints_nonneg subs) as Hk0.
  apply (Descriptor_init_values _ _ _ interface_defaults_fit) in Hdata.
  unfold InterfaceDescriptor.fields in Hdata. fields_inv Hdata.
  destruct Hv as [Hf Hnum], Hv0 as [Hf0 _], Hv1 as [_ _], Hv2 as [Hf2 Hcls],
    Hv3 as [Hf3 _], Hv4 as [Hf4 _], Hv5 as [Hf5 _].
  destruct (interface_bytes_unfold [v; v0; v1; v2; v3; v4; v5] subs parts Hall)
    as (subs' & ->).
  unfold list_setitem. case_decide as Hlt; [|cbn [length] in Hlt; lia].
  cbn [snd].
  change (<[2%nat := count_endpoints subs]> [v; v0; v1; v2; v3; v4; v5])
    with [v; v0; count_endpoints subs; v2; v3; v4; v5].
  assert (fits B (count_endpoints subs) = true) as Hfk by (apply fits_B; lia).
  assert (Forall (fun x => fits B x = true) [v; v0; count_endpoints subs; v2; v3; v4; v5])
    as Hfits by (repeat constructor; assumption).
  rewrite (proj2 (interface_record [v; v0; count_endpoints subs; v2; v3; v4; v5] _)
             (conj eq_refl (conj Hfits eq_refl))).
  cbn [bind map]. eexists. split; [reflexivity|].
  apply fits_B in Hf, Hf2.
  unfold wire_byte. cbn [app lookup list_lookup fmap option_fmap option_map].
  rewrite !Z_of_byte_of_Z by lia.
  split_all; try reflexivity.
  - destruct (kwargs !! "bInterfaceNumber"); cbn [default from_option id]; congruence.
  - destruct (kwargs !! "bInterfaceClass"); congruence.
Qed.

Lemma constructed_interface_bytes_witness :
  exists bs,
    snd (descriptor_bytes (Interface hid_fields mixed_children)) = Ok bs /\
    wire_byte bs 2
    = Some (default 0 (({[ "bInterfaceClass" := 3 ]} : gmap string Z) !! "bInterfaceNumber")) /\
    wire_byte bs 4 = Some (count_endpoints (default [] (Some mixed_children))) /\
    wire_byte bs 5 = ({[ "bInterfaceClass" := 3 ]} : gmap string Z) !! "bInterfaceClass" /\
    drop 9 bs
    = concat [ [x05; x24; x00; x10; x01]; [x07; x05; x81; x02; x40; x00; x00];
               [x05; x24; x00; x10; x01]; [x07; x05; x81; x02; x40; x00; x00];
               [x07; x05; x81; x02; x40; x00; x00] ].
Proof.
  apply (constructed_interface_bytes {[ "bInterfaceClass" := 3 ]} (Some mixed_children)).
  - vm_compute. reflexivity.
  - repeat constructor.
  - vm_compute. discriminate.
Defined.

(** The tables of the plain classes are consistent: the defaults fit
    their fields, the length and the type fit a byte, and the length is
    that of the header and the fields. *)
Lemma plain_classes_consistent :
  Forall (fun c =>
            Forall (fun f => match fdefault f with
                             | Some d => fits (ffmt f) d = true
                             | None => True
                             end) (cls_fields c) /\
            fits B (cls_bLength c) = true /\
            fits B (cls_bDescriptorType c) = true /\
            Z.of_nat (2 + sum_list (map (fun f => width (ffmt f)) (cls_fields c)))
            = cls_bLength c) plain_classes.
Proof. repeat constructor. Qed.

(** X12.  An instance of [EndpointDescriptor],
    [InterfaceAssociationDescriptor], [ConfigurationDescriptor] or
    [DeviceDescriptor] that the constructor returns always serializes, to
    exactly [bLength] bytes that begin with [bLength] and
    [bDescriptorType], and the call leaves the instance as it is. *)
Theorem plain_class_bytes (c : descriptor_class) (kwargs : gmap string Z) (d : descriptor) :
  c ∈ plain_classes ->
  Descriptor_new c kwargs = Ok d ->
  exists bs,
    descriptor_bytes d = (d, Ok bs) /\
    Z.of_nat (length bs) = cls_bLength c /\
    wire_byte bs 0 = Some (cls_bLength c) /\
    wire_byte bs 1 = Some (cls_bDescriptorType c).
Proof.
  intros Hc Hnew.
  pose proof plain_classes_consistent as Hcons. rewrite Forall_forall in Hcons.
  destruct (Hcons c Hc) as (Hdef & HfL & HfT & Hlen).
  unfold Descriptor_new in Hnew. apply bind_Ok in Hnew as (data & Hdata & [= <-]).
  pose proof (Descriptor_init_packs _ _ _ Hdef Hdata) as Hpack.
  destruct (pack_fields (cls_fields c) data) as [body|] eqn:Hbody; [|discriminate].
  apply pack_fields_length in Hbody as Hbl. destruct Hbl as [_ Hbl].
  cbn [descriptor_bytes]. unfold Descriptor_bytes, pack_field.
  rewrite HfL, HfT, Hbody. cbn [bind width le_bytes app].
  eexists. split_all; [reflexivity| | |].
  - cbn [length]. rewrite Hbl. lia.
  - unfold wire_byte. cbn. apply fits_B in HfL. now rewrite Z_of_byte_of_Z by lia.
  - unfold wire_byte. cbn. apply fits_B in HfT. now rewrite Z_of_byte_of_Z by lia.
Qed.

Lemma plain_class_bytes_witness :
  exists bs,
    descriptor_bytes
      (Fixed DeviceDescriptor.cls [0x200; 0xef; 0x02; 0x01; 0x40; 0x239A; 0x8015; 0x100; 1; 2; 3; 1])
    = (Fixed DeviceDescriptor.cls [0x200; 0xef; 0x02; 0x01; 0x40; 0x239A; 0x8015; 0x100; 1; 2; 3; 1],
       Ok bs) /\
    Z.of_nat (length bs) = cls_bLength DeviceDescriptor.cls /\
    wire_byte bs 0 = Some (cls_bLength DeviceDescriptor.cls) /\
    wire_byte bs 1 = Some (cls_bDescriptorType DeviceDescriptor.cls).
Proof.
  apply (plain_class_bytes DeviceDescriptor.cls sample_device).
  - unfold plain_classes. set_solver.
  - vm_compute. reflexivity.
Defined.

(** ** Growing the list of subdescriptors *)

(** X14.  One more subdescriptor at the end of the list.  When the
    interface serialized before, the new subdescriptor serializes and the
    number of endpoints still fits a byte, the interface serializes to
    the bytes it gave before, with the new number of endpoints in the
    fifth byte, followed by the bytes of the new subdescriptor. *)
Theorem interface_append_child (data : list Z) (subs : list descriptor) (d : descriptor)
    (bs p : list byte) :
  snd (descriptor_bytes (Interface data subs)) = Ok bs ->
  snd (descriptor_bytes d) = Ok p ->
  count_endpoints (subs ++ [d]) <= 255 ->
  snd (descriptor_bytes (Interface data (subs ++ [d])))
  = Ok (<[4%nat := byte_of_Z (count_endpoints (subs ++ [d]))]> bs ++ p).
Proof.
  intros Hbs Hp Hk.
  apply interface_bytes_iff in Hbs as (own & parts & Hall & Hown & ->).
  apply interface_record in Hown as (Hlen & Hfits & ->).
  rewrite length_insert in Hlen.
  pose proof (count_endpoints_nonneg (subs ++ [d])) as Hk0.
  apply interface_bytes_iff.
  exists (byte_of_Z 9 :: byte_of_Z 4
          :: map byte_of_Z (<[2%nat := count_endpoints (subs ++ [d])]> data)),
         (parts ++ [p]).
  split_all.
  - apply Forall2_app; [assumption|]. now repeat constructor.
  - apply interface_record. split_all; [now rewrite length_insert| |reflexivity].
    rewrite <- (list_insert_insert_eq data (2%nat) (count_endpoints (subs ++ [d]))
                  (count_endpoints subs)).
    apply Forall_insert; [assumption|]. apply fits_B. lia.
  - rewrite concat_app. cbn [concat]. rewrite app_nil_r, app_assoc. f_equal.
    rewrite insert_app_l by (cbn [length]; rewrite length_map, length_insert; lia).
    f_equal.
    change (byte_of_Z 9 :: byte_of_Z 4
            :: <[2%nat := byte_of_Z (count_endpoints (subs ++ [d]))]>
                 (byte_of_Z <$> <[2%nat := count_endpoints subs]> data)
            = byte_of_Z 9 :: byte_of_Z 4
              :: (byte_of_Z <$> <[2%nat := count_endpoints (subs ++ [d])]> data)).
    now rewrite <- list_fmap_insert, list_insert_insert_eq.
Qed.

Lemma interface_append_child_witness :
  snd (descriptor_bytes (Interface hid_fields ([class_specific] ++ [bulk_in])))
  = Ok (<[4%nat := byte_of_Z (count_endpoints ([class_specific] ++ [bulk_in]))]>
          [x09; x04; x00; x00; x00; x03; x00; x00; x00; x05; x24; x00; x10; x01]
        ++ [x07; x05; x81; x02; x40; x00; x00]).
Proof.
  apply (interface_append_child hid_fields [class_specific] bulk_in).
  - reflexivity.
  - reflexivity.
  - vm_compute. discriminate.
Defined.

(** ** Sequences that are not byte strings *)

(** X15.  A list (or tuple) of integers with at least two elements and a
    second element 3 is accepted by the constructor, but the instance is
    of no use: [__bytes__] raises in the packer, which wants a byte
    string, and reading [bString] raises [AttributeError], a list having
    no [decode]. *)
Theorem list_is_accepted_but_unusable (x0 : Z) (rest : list Z) :
  exists self,
    StringDescriptor.__init__ (PyList (x0 :: 3 :: rest)) = Ok self /\
    self !! "_bLength" = Some (PyInt x0) /\
    self !! "_bString" = Some (PyList (slice (x0 :: 3 :: rest) 2 (2 + x0))) /\
    StringDescriptor.__bytes__ self = Err StructError /\
    StringDescriptor.bString self = Err (AttributeError "decode").
Proof.
  unfold StringDescriptor.__init__. cbn [py_len bind length].
  assert ((1 <? Z.of_nat (S (S (length rest)))) = true) as -> by (apply Z.ltb_lt; lia).
  cbn [py_getitem item lookup list_lookup bind py_ne_int Z.eqb negb Pos.eqb].
  unfold StringDescriptor.bLength, getattr. rewrite lookup_insert_eq.
  cbn [bind py_add_int py_getslice]. eexists. split; [reflexivity|].
  split_all.
  - rewrite lookup_insert_ne by discriminate. apply lookup_insert_eq.
  - apply lookup_insert_eq.
  - unfold StringDescriptor.__bytes__, StringDescriptor.bLength, getattr.
    rewrite lookup_insert_eq. cbn [bind py_len].
    rewrite lookup_insert_ne by discriminate. rewrite lookup_insert_eq. cbn [bind].
    unfold struct_pack_BBs. reflexivity.
  - unfold StringDescriptor.bString, getattr. rewrite lookup_insert_eq. reflexivity.
Qed.
